(** * AQI India dashboard: classification, aggregation and filtering

    A shallow embedding of [main.py].  The script is glue over pandas, so the
    embedding has four layers:

    - [Float64]: the values of a float64 column, NaN included, with the IEEE
      comparisons the script relies on;
    - [Numpy]: the sorting kernel behind [sort_values], taken as a parameter
      that obeys the documented contract of [kind="quicksort"];
    - [Pandas]: the Series and DataFrame operations the script calls;
    - [Main]: the definitions of [main.py] itself, under the source's names.

    Definitions come first; the facts about them follow. *)

From Stdlib Require Import ZArith List Bool String Ascii Lia.
From Stdlib Require Import Permutation Sorted.
From Stdlib Require Import Floats.SpecFloat.
Import ListNotations.

Local Open Scope string_scope.
Local Open Scope list_scope.

(** ** Values of a float64 column *)

Module Float64.

(** binary64: 53 bits of precision, infinities at exponent 1024.  A missing
    cell of a numeric column is NaN. *)
Definition prec : Z := 53.
Definition emax : Z := 1024.

(** The values are those of [spec_float]: signed zeros, signed infinities,
    NaN, and finite numbers as sign, mantissa and exponent.  The type also
    holds mantissa and exponent pairs that binary64 does not use;
    [valid_binary prec emax] tells the others apart.  The facts below hold for
    every inhabitant, hence for every binary64 value. *)
Definition float : Type := spec_float.

Definition nan : float := S754_nan.

Definition isnan (x : float) : bool :=
  match x with
  | S754_nan => true
  | _ => false
  end.

Definition notna (x : float) : bool := negb (isnan x).

(** Python's [x <= y], [x < y] and [x > y] on floats: every comparison with
    NaN is false. *)
Definition leb (x y : float) : bool := SFleb x y.
Definition ltb (x y : float) : bool := SFltb x y.
Definition gtb (x y : float) : bool := SFltb y x.

Definition add (x y : float) : float := SFadd prec emax x y.
Definition sub (x y : float) : float := SFsub prec emax x y.
Definition div (x y : float) : float := SFdiv prec emax x y.

(** An integer literal, or an integer count, converted to float64. *)
Definition of_Z (z : Z) : float := binary_normalize prec emax z 0 false.
Definition of_nat (n : nat) : float := of_Z (Z.of_nat n).

(** The position of a non-NaN value in the order of [SFcompare]: sign class
    first, then exponent, then mantissa, the last two mirrored for negative
    values. *)
Definition rank (x : float) : Z * Z * Z :=
  match x with
  | S754_nan => (0, 0, 0)
  | S754_zero _ => (0, 0, 0)
  | S754_infinity true => (-2, 0, 0)
  | S754_infinity false => (2, 0, 0)
  | S754_finite true m e => (-1, - e, Z.neg m)
  | S754_finite false m e => (1, e, Z.pos m)
  end%Z.

Definition lex_compare (a b : Z * Z * Z) : comparison :=
  let '(a1, a2, a3) := a in
  let '(b1, b2, b3) := b in
  match (a1 ?= b1)%Z with
  | Eq => match (a2 ?= b2)%Z with
          | Eq => (a3 ?= b3)%Z
          | c => c
          end
  | c => c
  end.

End Float64.

(** ** The sorting kernel

    [sort_values] hands the array to numpy.  The script does not pass [kind],
    so the kernel is the default one, "quicksort", of which the library only
    promises that it sorts.  The kernel is therefore a parameter of the
    embedding, and [sorts] is what is known about it. *)

Module Numpy.

(** A sorting routine, generic in the element type and driven by a strict
    "less than" test, as numpy's kernels are. *)
Definition kernel : Type := forall A : Type, (A -> A -> bool) -> list A -> list A.

(** [ltb] is a strict weak order on the elements of [xs]. *)
Definition strict_weak_on {A : Type} (ltb : A -> A -> bool) (xs : list A) : Prop :=
  (forall a, In a xs -> ltb a a = false) /\
  (forall a b c, In a xs -> In b xs -> In c xs ->
                 ltb a b = true -> ltb b c = true -> ltb a c = true) /\
  (forall a b c, In a xs -> In b xs -> In c xs ->
                 ltb a b = false -> ltb b c = false -> ltb a c = false).

(** No element of the list is strictly below an earlier one. *)
Definition ascending {A : Type} (ltb : A -> A -> bool) (xs : list A) : Prop :=
  StronglySorted (fun a b => ltb b a = false) xs.

(** What [kind="quicksort"] promises: the output is a rearrangement of the
    input and is in ascending order.  Nothing is promised about the relative
    order of elements that compare equal: quicksort is not stable. *)
Definition sorts (sort : kernel) : Prop :=
  forall (A : Type) (ltb : A -> A -> bool) (xs : list A),
    Permutation xs (sort A ltb xs) /\
    (strict_weak_on ltb xs -> ascending ltb (sort A ltb xs)).

(** Elements that compare equal to [x], in the order they occur. *)
Definition ties {A : Type} (ltb : A -> A -> bool) (x : A) (xs : list A) : list A :=
  filter (fun y => negb (ltb x y) && negb (ltb y x)) xs.

(** A stable kernel ([kind="stable"], or insertion sort on a short array)
    keeps elements that compare equal in their input order. *)
Definition stable (sort : kernel) : Prop :=
  forall (A : Type) (ltb : A -> A -> bool) (xs : list A) (x : A),
    strict_weak_on ltb (x :: xs) ->
    ties ltb x (sort A ltb xs) = ties ltb x xs.

(** Two concrete kernels.  Both are insertion sorts run from the right end
    of the array; they differ only in where an element lands among its
    equals. *)
Fixpoint insert_first {A : Type} (ltb : A -> A -> bool) (x : A) (l : list A) : list A :=
  match l with
  | [] => [x]
  | y :: t => if ltb y x then y :: insert_first ltb x t else x :: l
  end.

Fixpoint insert_last {A : Type} (ltb : A -> A -> bool) (x : A) (l : list A) : list A :=
  match l with
  | [] => [x]
  | y :: t => if ltb x y then x :: l else y :: insert_last ltb x t
  end.

(** Stable: an element is placed in front of its equals, all of which come
    later in the input. *)
Definition insertion_sort : kernel :=
  fun A ltb xs => fold_right (insert_first ltb) [] xs.

(** Not stable: an element is placed behind its equals, so equal elements
    come out in reverse input order. *)
Definition reversing_sort : kernel :=
  fun A ltb xs => fold_right (insert_last ltb) [] xs.

(** *** numpy's own quicksort

    The kernel numpy runs for [kind="quicksort"] when no vectorised routine
    is dispatched: [aquicksort_] of [npysort/quicksort.cpp], an introsort.
    A segment of more than 17 elements is partitioned around the median of
    its first, middle and last element; a shorter one is finished by
    insertion sort; a segment reached after [2 * floor(log2 n)] partitions
    is handed to heapsort.  The array of indices of the source is an array of
    elements here, which is the same thing once the indices are looked up.
    Loops carry a fuel that the length of the array bounds; positions are
    signed, as the pointer differences of the source are. *)

Section Quicksort.
Context {A : Type} (less : A -> A -> bool) (d : A).

Local Open Scope Z_scope.

Definition aget (a : list A) (i : Z) : A := nth (Z.to_nat i) a d.

Fixpoint set_nth (a : list A) (i : nat) (x : A) : list A :=
  match a, i with
  | [], _ => []
  | _ :: t, O => x :: t
  | y :: t, S i' => y :: set_nth t i' x
  end.

Definition aset (a : list A) (i : Z) (x : A) : list A := set_nth a (Z.to_nat i) x.

Definition aswap (a : list A) (i j : Z) : list A :=
  aset (aset a i (aget a j)) j (aget a i).

Definition SMALL_QUICKSORT : Z := 16.

(** [do ++pi; while (less(v[*pi], vp))] and [do --pj; while (less(vp, v[*pj]))]. *)
Fixpoint scan_up (fuel : nat) (a : list A) (vp : A) (pi : Z) : Z :=
  match fuel with
  | O => pi
  | S f => let pi := pi + 1 in
           if less (aget a pi) vp then scan_up f a vp pi else pi
  end.

Fixpoint scan_down (fuel : nat) (a : list A) (vp : A) (pj : Z) : Z :=
  match fuel with
  | O => pj
  | S f => let pj := pj - 1 in
           if less vp (aget a pj) then scan_down f a vp pj else pj
  end.

(** The [for (;;)] loop of the partition: scan, stop when the scans meet,
    otherwise swap and go on. *)
Fixpoint exchange (fuel : nat) (a : list A) (vp : A) (pi pj : Z) : list A * Z :=
  match fuel with
  | O => (a, pi)
  | S f =>
      let pi := scan_up (List.length a) a vp pi in
      let pj := scan_down (List.length a) a vp pj in
      if pi >=? pj then (a, pi) else exchange f (aswap a pi pj) vp pi pj
  end.

(** One partition of the segment [pl .. pr]: median of three, pivot parked
    at [pr - 1], exchange, pivot put in place.  Returns the pivot's place. *)
Definition partition (a : list A) (pl pr : Z) : list A * Z :=
  let pm := pl + Z.shiftr (pr - pl) 1 in
  let a := if less (aget a pm) (aget a pl) then aswap a pm pl else a in
  let a := if less (aget a pr) (aget a pm) then aswap a pr pm else a in
  let a := if less (aget a pm) (aget a pl) then aswap a pm pl else a in
  let vp := aget a pm in
  let pi := pl in
  let pj := pr - 1 in
  let a := aswap a pm pj in
  let '(a, pi) := exchange (List.length a) a vp pi pj in
  let pk := pr - 1 in
  (aswap a pi pk, pi).

(** Insertion sort of the segment [pl .. pr]. *)
Fixpoint shift (fuel : nat) (a : list A) (pl : Z) (vi : A) (pj : Z) : list A :=
  match fuel with
  | O => aset a pj vi
  | S f =>
      if (pj >? pl) && less vi (aget a (pj - 1))
      then shift f (aset a pj (aget a (pj - 1))) pl vi (pj - 1)
      else aset a pj vi
  end.

Fixpoint insertion (fuel : nat) (a : list A) (pl pr pi : Z) : list A :=
  match fuel with
  | O => a
  | S f =>
      if pi <=? pr
      then insertion f (shift (List.length a) a pl (aget a pi) pi) pl pr (pi + 1)
      else a
  end.

(** [aheapsort_] on the [n] elements from [pl], counted from one as in the
    source ([base] is the position before the first). *)
Fixpoint sift (fuel : nat) (a : list A) (base : Z) (tmp : A) (n i j : Z) : list A :=
  match fuel with
  | O => aset a (base + i) tmp
  | S f =>
      if j <=? n then
        let j := if (j <? n) && less (aget a (base + j)) (aget a (base + j + 1))
                 then j + 1 else j in
        if less tmp (aget a (base + j))
        then sift f (aset a (base + i) (aget a (base + j))) base tmp n j (j + j)
        else aset a (base + i) tmp
      else aset a (base + i) tmp
  end.

Fixpoint heapify (fuel : nat) (a : list A) (base n l : Z) : list A :=
  match fuel with
  | O => a
  | S f =>
      if l >? 0
      then heapify f (sift (List.length a) a base (aget a (base + l)) n l (Z.shiftl l 1))
                   base n (l - 1)
      else a
  end.

Fixpoint extract (fuel : nat) (a : list A) (base n : Z) : list A :=
  match fuel with
  | O => a
  | S f =>
      if n >? 1 then
        let tmp := aget a (base + n) in
        let a := aset a (base + n) (aget a (base + 1)) in
        let n := n - 1 in
        extract f (sift (List.length a) a base tmp n 1 2) base n
      else a
  end.

Definition aheapsort (a : list A) (pl n : Z) : list A :=
  let base := pl - 1 in
  let a := heapify (List.length a) a base n (Z.shiftr n 1) in
  extract (List.length a) a base n.

(** The outer [while (1)] with its stack of pending segments.  [at_top] is
    the head of the loop, where the depth is tested; [at_partition] is the
    inner [while ((pr - pl) > SMALL_QUICKSORT)]. *)
Inductive point : Type := at_top | at_partition.

Fixpoint run (fuel : nat) (pc : point) (a : list A) (pl pr cdepth : Z)
         (stack : list (Z * Z * Z)) : list A :=
  match fuel with
  | O => a
  | S f =>
      let pop := fun a =>
        match stack with
        | [] => a
        | (pl, pr, cdepth) :: stack => run f at_top a pl pr cdepth stack
        end in
      match pc with
      | at_top =>
          if cdepth <? 0
          then pop (aheapsort a pl (pr - pl + 1))
          else run f at_partition a pl pr cdepth stack
      | at_partition =>
          if pr - pl >? SMALL_QUICKSORT then
            let '(a, pi) := partition a pl pr in
            let cdepth := cdepth - 1 in
            if pi - pl <? pr - pi
            then run f at_partition a pl (pi - 1) cdepth ((pi + 1, pr, cdepth) :: stack)
            else run f at_partition a (pi + 1) pr cdepth ((pl, pi - 1, cdepth) :: stack)
          else pop (insertion (List.length a) a pl pr (pl + 1))
      end
  end.

Definition aquicksort (a : list A) : list A :=
  let num := Z.of_nat (List.length a) in
  run (4 * List.length a + 4) at_top a 0 (num - 1) (Z.log2 num * 2) [].

End Quicksort.

Definition numpy_quicksort : kernel :=
  fun A less xs =>
    match xs with
    | [] => []
    | d :: _ => aquicksort less d xs
    end.

End Numpy.

(** ** Series and DataFrame operations *)

Module Pandas.
Import Float64.

(** A Series is the list of its (label, value) rows, in order. *)
Definition Series (L V : Type) : Type := list (L * V).

(** Values of an object column: a string, or missing. *)
Definition cell_eqb (a b : option string) : bool :=
  match a, b with
  | Some x, Some y => String.eqb x y
  | None, None => true
  | _, _ => false
  end.

(** [Series.isin(values)]: a missing cell matches a missing entry of
    [values]. *)
Definition isin (values : list (option string)) (c : option string) : bool :=
  existsb (cell_eqb c) values.

Definition dropna (xs : list float) : list float := filter notna xs.

(** [Series.max()] with the default [skipna=True]: the largest non-NaN
    value, NaN when there is none (empty or all-NaN column). *)
Definition fmax (a b : float) : float := if ltb a b then b else a.

Definition max (xs : list float) : float :=
  match dropna xs with
  | [] => nan
  | x :: t => fold_left fmax t x
  end.

(** [groupby(...).mean()] on one group, with the default [skipna=True]: the
    NaN cells are left out of both the sum and the count, and the result is
    NaN when nothing is left.  The sum is the compensated (Kahan) sum of
    pandas' [group_mean]: each value is first corrected by the error of the
    previous addition, and an error that is itself NaN, as after an infinite
    value, is reset to zero. *)
Definition kahan_step (acc : float * float) (val : float) : float * float :=
  let '(sumx, compensation) := acc in
  let y := sub val compensation in
  let t := add sumx y in
  let c := sub (sub t sumx) y in
  (t, if isnan c then of_Z 0 else c).

Definition sum (xs : list float) : float :=
  fst (fold_left kahan_step xs (of_Z 0, of_Z 0)).

Definition mean (xs : list float) : float :=
  match dropna xs with
  | [] => nan
  | ys => div (sum ys) (of_nat (List.length ys))
  end.

(** Distinct values in order of first appearance. *)
Fixpoint unique (l : list string) : list string :=
  match l with
  | [] => []
  | x :: t => x :: filter (fun y => negb (String.eqb x y)) (unique t)
  end.

(** Present (non-missing) cells of an object column. *)
Fixpoint present (l : list (option string)) : list string :=
  match l with
  | [] => []
  | Some x :: t => x :: present t
  | None :: t => present t
  end.

Definition count (l : list string) (x : string) : nat :=
  List.length (filter (String.eqb x) l).

Definition head {A : Type} (n : nat) (l : list A) : list A := firstn n l.

Section WithKernel.
Variable sort : Numpy.kernel.

(** [Series.sort_values(ascending=..., kind="quicksort", na_position="last")].
    The NaN rows are set aside and appended at the end.  A descending sort
    reverses the rest, sorts it ascending, and reverses the result. *)
Definition sort_values {L V : Type} (isna : V -> bool) (lt : V -> V -> bool)
           (ascending : bool) (s : Series L V) : Series L V :=
  let by_value := fun a b : L * V => lt (snd a) (snd b) in
  let non_nans := filter (fun r => negb (isna (snd r))) s in
  let nans := filter (fun r => isna (snd r)) s in
  (if ascending
   then sort _ by_value non_nans
   else rev (sort _ by_value (rev non_nans)))
    ++ nans.

(** [Series.value_counts()]: one row per distinct value, most frequent
    first. *)
Definition value_counts (l : list string) : Series string nat :=
  sort_values (fun _ => false) Nat.ltb false
              (map (fun x => (x, count l x)) (unique l)).

(** The group keys of [groupby(col)] with the defaults [sort=True] and
    [dropna=True]: the distinct present keys, in ascending order. *)
Definition group_keys (keys : list (option string)) : list string :=
  sort _ String.ltb (unique (present keys)).

(** [df.groupby(key)[val].mean()]. *)
Definition groupby_mean {R : Type} (key : R -> option string) (val : R -> float)
           (df : list R) : Series string float :=
  map (fun k => (k, mean (map val (filter (fun r => cell_eqb (key r) (Some k)) df))))
      (group_keys (map key df)).

End WithKernel.

(** *** Further operations the script calls *)

Definition cell_isna (c : option string) : bool :=
  match c with
  | None => true
  | Some _ => false
  end.

(** [Series.isnull().sum()]: the number of missing cells of a column. *)
Definition isnull_sum {A : Type} (isna : A -> bool) (col : list A) : nat :=
  List.length (filter isna col).

(** [Series.nunique()] with the default [dropna=True]: the number of distinct
    present cells. *)
Definition nunique (col : list (option string)) : nat :=
  List.length (unique (present col)).

(** [Series.unique()] on an object column: the distinct cells in order of
    first appearance; a missing cell is one of them. *)
Fixpoint unique_cells (l : list (option string)) : list (option string) :=
  match l with
  | [] => []
  | x :: t => x :: filter (fun y => negb (cell_eqb x y)) (unique_cells t)
  end.

(** Python's [sep.join(items)]: the items separated by [sep]; an item that is
    not a string, here a missing cell, raises [TypeError], rendered as
    [None]. *)
Fixpoint strings_of (items : list (option string)) : option (list string) :=
  match items with
  | [] => Some []
  | None :: _ => None
  | Some s :: t =>
      match strings_of t with
      | None => None
      | Some l => Some (s :: l)
      end
  end.

Definition join (sep : string) (items : list (option string)) : option string :=
  match strings_of items with
  | None => None
  | Some l => Some (String.concat sep l)
  end.

End Pandas.

(** ** The script *)

Module Main.
Import Float64 Pandas.

(** A row of [AQI.csv] as [pd.read_csv] delivers it: text columns hold a
    string or are missing, numeric columns are float64 with NaN for a
    missing cell, and [last_update] is still text.  A file whose numeric
    columns hold text is not a value of this type: on such a file the
    comparison of line 18 raises, which [load_data] below does not show. *)
Record RawRow : Type := mkRawRow {
  raw_state : option string;
  raw_city : option string;
  raw_station : option string;
  raw_last_update : option string;
  raw_latitude : float;
  raw_longitude : float;
  raw_pollutant_id : option string;
  raw_pollutant_min : float;
  raw_pollutant_max : float;
  raw_pollutant_avg : float
}.

(** A row of the frame [load_data] returns: [last_update] parsed ([None] is
    NaT), and the derived column [AQI_Category]. *)
Record Row : Type := mkRow {
  state : option string;
  city : option string;
  station : option string;
  last_update : option Z;
  latitude : float;
  longitude : float;
  pollutant_id : option string;
  pollutant_min : float;
  pollutant_max : float;
  pollutant_avg : float;
  AQI_Category : string
}.

Definition DataFrame : Type := list Row.

(** The five labels, glyphs included, as the script spells them. *)
Inductive tier : Type := Good | Moderate | UnhealthySensitive | Unhealthy | Hazardous.

Definition label (t : tier) : string :=
  match t with
  | Good => "🟢 Good"
  | Moderate => "🟡 Moderate"
  | UnhealthySensitive => "🟠 Unhealthy (Sensitive)"
  | Unhealthy => "🔴 Unhealthy"
  | Hazardous => "☠️ Hazardous"
  end.

Definition tiers : list tier := [Good; Moderate; UnhealthySensitive; Unhealthy; Hazardous].

(** [aqi_category], lines 17-27. *)
Definition aqi_category (value : float) : string :=
  if leb value (of_Z 50) then "🟢 Good"
  else if leb value (of_Z 100) then "🟡 Moderate"
  else if leb value (of_Z 150) then "🟠 Unhealthy (Sensitive)"
  else if leb value (of_Z 200) then "🔴 Unhealthy"
  else "☠️ Hazardous".

(** Run a fallible step over every row; the first failure aborts. *)
Fixpoint traverse {A B : Type} (f : A -> option B) (l : list A) : option (list B) :=
  match l with
  | [] => Some []
  | a :: t =>
      match f a with
      | None => None
      | Some b =>
          match traverse f t with
          | None => None
          | Some bs => Some (b :: bs)
          end
      end
  end.

Section Loader.
(** The two library parsers.  [read_csv] maps the text of [AQI.csv] to its
    rows, [to_datetime] a cell of text to a timestamp; [None] stands for
    the exception either raises on input it cannot parse. *)
Variable read_csv : string -> option (list RawRow).
Variable to_datetime : string -> option Z.

(** [pd.to_datetime] on one cell: a missing cell becomes NaT. *)
Definition parse_cell (c : option string) : option (option Z) :=
  match c with
  | None => Some None
  | Some s =>
      match to_datetime s with
      | None => None
      | Some t => Some (Some t)
      end
  end.

(** Lines 14 and 29 on one row: replace [last_update] by its parsed value
    and add [AQI_Category]. *)
Definition load_row (r : RawRow) : option Row :=
  match parse_cell (raw_last_update r) with
  | None => None
  | Some t =>
      Some {| state := raw_state r;
              city := raw_city r;
              station := raw_station r;
              last_update := t;
              latitude := raw_latitude r;
              longitude := raw_longitude r;
              pollutant_id := raw_pollutant_id r;
              pollutant_min := raw_pollutant_min r;
              pollutant_max := raw_pollutant_max r;
              pollutant_avg := raw_pollutant_avg r;
              AQI_Category := aqi_category (raw_pollutant_avg r) |}
  end.

(** [load_data], lines 12-30, without the cache. *)
Definition load_data (source : string) : option DataFrame :=
  match read_csv source with
  | None => None
  | Some raw => traverse load_row raw
  end.

(** [@st.cache_data]: the function takes no argument, so the cache holds
    at most one entry.  A hit returns the stored frame; a miss runs the
    body and stores its result; an exception stores nothing. *)
Definition Cache : Type := option DataFrame.

Definition load_data_cached (cache : Cache) (source : string)
  : option DataFrame * Cache :=
  match cache with
  | Some df => (Some df, cache)
  | None =>
      match load_data source with
      | Some df => (Some df, Some df)
      | None => (None, None)
      end
  end.

End Loader.

(** Line 42: [df["pollutant_avg"].max() > 200]. *)
Definition alert (df : DataFrame) : bool :=
  gtb (max (map pollutant_avg df)) (of_Z 200).

(** Lines 108-113: the radio button picks the column, the multiselect the
    values; an empty selection is falsy and leaves [df.copy()] of line 34 in
    place. *)
Inductive filter_option : Type := State | City.

Definition column (o : filter_option) : Row -> option string :=
  match o with
  | State => state
  | City => city
  end.

Definition filtered_df (o : filter_option) (selected : list (option string))
           (df : DataFrame) : DataFrame :=
  match selected with
  | [] => df
  | _ :: _ => filter (fun r => isin selected (column o r)) df
  end.

Section WithKernel.
Variable sort : Numpy.kernel.

(** Line 68. *)
Definition category_counts (df : DataFrame) : Series string nat :=
  value_counts sort (map AQI_Category df).

(** Line 90. *)
Definition state_avg (df : DataFrame) : Series string float :=
  sort_values sort isnan ltb false (groupby_mean sort state pollutant_avg df).

(** The ranking of line 98 before [head]. *)
Definition city_ranking (df : DataFrame) : Series string float :=
  sort_values sort isnan ltb true (groupby_mean sort city pollutant_avg df).

(** Line 98 with the length of the head left open. *)
Definition cleanest (n : nat) (df : DataFrame) : Series string float :=
  head n (city_ranking df).

(** Line 98. *)
Definition cleanest_cities (df : DataFrame) : Series string float :=
  cleanest 5 df.

End WithKernel.

(** Line 61: [df.isnull().sum()], one row per column.  The columns are those
    the script names; the derived column comes last.  A text cell is null
    when missing, a number when NaN, a timestamp when NaT; a label is never
    null. *)
Inductive column_name : Type :=
| c_state | c_city | c_station | c_last_update | c_latitude | c_longitude
| c_pollutant_id | c_pollutant_min | c_pollutant_max | c_pollutant_avg
| c_AQI_Category.

Definition column_label (c : column_name) : string :=
  match c with
  | c_state => "state"
  | c_city => "city"
  | c_station => "station"
  | c_last_update => "last_update"
  | c_latitude => "latitude"
  | c_longitude => "longitude"
  | c_pollutant_id => "pollutant_id"
  | c_pollutant_min => "pollutant_min"
  | c_pollutant_max => "pollutant_max"
  | c_pollutant_avg => "pollutant_avg"
  | c_AQI_Category => "AQI_Category"
  end.

Definition columns : list column_name :=
  [c_state; c_city; c_station; c_last_update; c_latitude; c_longitude;
   c_pollutant_id; c_pollutant_min; c_pollutant_max; c_pollutant_avg;
   c_AQI_Category].

Definition isnull (c : column_name) (r : Row) : bool :=
  match c with
  | c_state => cell_isna (state r)
  | c_city => cell_isna (city r)
  | c_station => cell_isna (station r)
  | c_last_update => match last_update r with None => true | Some _ => false end
  | c_latitude => isnan (latitude r)
  | c_longitude => isnan (longitude r)
  | c_pollutant_id => cell_isna (pollutant_id r)
  | c_pollutant_min => isnan (pollutant_min r)
  | c_pollutant_max => isnan (pollutant_max r)
  | c_pollutant_avg => isnan (pollutant_avg r)
  | c_AQI_Category => false
  end.

Definition missing_values (df : DataFrame) : Series string nat :=
  map (fun c => (column_label c, isnull_sum (isnull c) df)) columns.

(** Line 75: the two totals of the overview. *)
Definition total_cities (df : DataFrame) : nat := nunique (map city df).
Definition total_stations (df : DataFrame) : nat := nunique (map station df).

(** Line 109: the values offered by the multiselect. *)
Definition options (o : filter_option) (df : DataFrame) : list (option string) :=
  unique_cells (map (column o) df).

(** Line 120: the title of the box plot. *)
Definition box_title (selected : list (option string)) : option string :=
  match selected with
  | [] => Some "Pollutant Level Distribution (All)"
  | _ :: _ =>
      match join ", " selected with
      | None => None
      | Some names => Some ("Pollutant Level Distribution (" ++ names ++ ")")%string
      end
  end.

(** Line 138: the points of the heat map, [latitude, longitude, weight],
    from the rows where none of the three is missing. *)
Definition heat_data (df : DataFrame) : list (list float) :=
  map (fun r => [latitude r; longitude r; pollutant_avg r])
      (filter (fun r => notna (latitude r) && notna (longitude r) && notna (pollutant_avg r))
              df).

(** Line 33 over a session: Streamlit runs the script again on every
    interaction, and every run calls [load_data()] through the cache.
    [sources] is the text of the file at each run. *)
Fixpoint session (read_csv : string -> option (list RawRow))
         (to_datetime : string -> option Z)
         (cache : Cache) (sources : list string) : list (option DataFrame) :=
  match sources with
  | [] => []
  | source :: later =>
      let '(df, cache') := load_data_cached read_csv to_datetime cache source in
      df :: session read_csv to_datetime cache' later
  end.

End Main.

(** ** Vocabulary of the properties *)

Module Spec.
Import Float64 Pandas Main.

(** The thresholds as the specification words them. *)
Inductive tier_of (v : float) : tier -> Prop :=
| tier_good :
    leb v (of_Z 50) = true -> tier_of v Good
| tier_moderate :
    ltb (of_Z 50) v = true -> leb v (of_Z 100) = true -> tier_of v Moderate
| tier_sensitive :
    ltb (of_Z 100) v = true -> leb v (of_Z 150) = true -> tier_of v UnhealthySensitive
| tier_unhealthy :
    ltb (of_Z 150) v = true -> leb v (of_Z 200) = true -> tier_of v Unhealthy
| tier_hazardous :
    gtb v (of_Z 200) = true -> tier_of v Hazardous.

(** A frame whose derived column agrees with the classifier, as every frame
    from [load_data] does. *)
Definition categorized (df : DataFrame) : Prop :=
  Forall (fun r => AQI_Category r = aqi_category (pollutant_avg r)) df.

(** Records whose reading is present. *)
Definition categorizable (df : DataFrame) : nat :=
  List.length (filter (fun r => notna (pollutant_avg r)) df).

Definition total (s : Series string nat) : nat :=
  fold_right Nat.add 0 (map snd s).

(** [m] is the largest reading present in the frame. *)
Definition is_max (df : DataFrame) (m : float) : Prop :=
  isnan m = false /\
  In m (map pollutant_avg df) /\
  forall r, In r df -> isnan (pollutant_avg r) = false -> leb (pollutant_avg r) m = true.

(** A ranking by mean: the rows with a mean come first, ordered by [le];
    the rows whose mean is NaN (no reading at all) close the list. *)
Definition ranked (le : float -> float -> bool) (s : Series string float) : Prop :=
  exists rated unrated,
    s = rated ++ unrated /\
    Forall (fun r => isnan (snd r) = false) rated /\
    Forall (fun r => isnan (snd r) = true) unrated /\
    StronglySorted (fun a b => le (snd a) (snd b) = true) rated.

Definition ranked_ascending : Series string float -> Prop := ranked leb.
Definition ranked_descending : Series string float -> Prop := ranked (fun x y => leb y x).

(** No row has a smaller mean than a row before it; no row has a larger
    one.  A NaN mean is neither smaller nor larger than anything. *)
Definition never_decreasing (s : Series string float) : Prop :=
  StronglySorted (fun a b => ltb (snd b) (snd a) = false) s.

Definition never_increasing (s : Series string float) : Prop :=
  StronglySorted (fun a b => ltb (snd a) (snd b) = false) s.

(** Rows with equal means appear in ascending order of their label. *)
Fixpoint ties_by_name (s : Series string float) : Prop :=
  match s with
  | [] => True
  | a :: t =>
      Forall (fun b => SFeqb (snd a) (snd b) = true -> String.ltb (fst a) (fst b) = true) t
      /\ ties_by_name t
  end.

(** The two properties above as tests, to be run on a given Series. *)
Definition never_increasingb (s : Series string float) : bool :=
  (fix go (s : Series string float) : bool :=
     match s with
     | [] => true
     | a :: t => forallb (fun b => negb (ltb (snd a) (snd b))) t && go t
     end) s.

Definition ties_by_nameb (s : Series string float) : bool :=
  (fix go (s : Series string float) : bool :=
     match s with
     | [] => true
     | a :: t =>
         forallb (fun b => implb (SFeqb (snd a) (snd b)) (String.ltb (fst a) (fst b))) t
         && go t
     end) s.

(** The tiers in ascending order of severity. *)
Definition severity (t : tier) : nat :=
  match t with
  | Good => 0
  | Moderate => 1
  | UnhealthySensitive => 2
  | Unhealthy => 3
  | Hazardous => 4
  end.

End Spec.

(** ** Sample data *)

Module Samples.
Import Float64 Pandas Main.

(** A line of the file with the given state, city and average reading. *)
Definition raw_reading (st ci : string) (avg : float) : RawRow :=
  {| raw_state := Some st;
     raw_city := Some ci;
     raw_station := Some ci;
     raw_last_update := Some "01-01-2025 10:00:00";
     raw_latitude := of_Z 20;
     raw_longitude := of_Z 78;
     raw_pollutant_id := Some "PM2.5";
     raw_pollutant_min := avg;
     raw_pollutant_max := avg;
     raw_pollutant_avg := avg |}.

(** The same line once loaded. *)
Definition reading (st ci : string) (avg : float) : Row :=
  {| state := Some st;
     city := Some ci;
     station := Some ci;
     last_update := Some 0%Z;
     latitude := of_Z 20;
     longitude := of_Z 78;
     pollutant_id := Some "PM2.5";
     pollutant_min := avg;
     pollutant_max := avg;
     pollutant_avg := avg;
     AQI_Category := aqi_category avg |}.

(** Parsers for a file with fixed content. *)
Definition csv_with (rows : list RawRow) : string -> option (list RawRow) :=
  fun _ => Some rows.

Definition midnight : string -> option Z := fun _ => Some 0%Z.

(** Readings 10, 60, 120 and 210 in four cities of three states. *)
Definition four_readings : DataFrame :=
  [ reading "Kerala" "Kochi" (of_Z 10);
    reading "Kerala" "Kollam" (of_Z 60);
    reading "Punjab" "Amritsar" (of_Z 120);
    reading "Delhi" "Delhi" (of_Z 210) ].

(** A single station that reported no average. *)
Definition silent_station : DataFrame := [ reading "Goa" "Panaji" nan ].

(** Two states with the same mean. *)
Definition level_states : DataFrame :=
  [ reading "Assam" "Guwahati" (of_Z 10);
    reading "Bihar" "Patna" (of_Z 10) ].

(** Thirty states with one station each, reading 40, 90 or 160: ten states
    share each mean. *)
Definition thirty_states : DataFrame :=
  [ reading "Andhra Pradesh" "Amaravati" (of_Z 90);
    reading "Arunachal Pradesh" "Itanagar" (of_Z 40);
    reading "Assam" "Guwahati" (of_Z 160);
    reading "Bihar" "Patna" (of_Z 90);
    reading "Chhattisgarh" "Raipur" (of_Z 90);
    reading "Delhi" "Delhi" (of_Z 40);
    reading "Goa" "Panaji" (of_Z 160);
    reading "Gujarat" "Ahmedabad" (of_Z 40);
    reading "Haryana" "Gurugram" (of_Z 90);
    reading "Himachal Pradesh" "Shimla" (of_Z 160);
    reading "Jharkhand" "Ranchi" (of_Z 40);
    reading "Karnataka" "Bengaluru" (of_Z 90);
    reading "Kerala" "Kochi" (of_Z 160);
    reading "Madhya Pradesh" "Bhopal" (of_Z 160);
    reading "Maharashtra" "Mumbai" (of_Z 40);
    reading "Manipur" "Imphal" (of_Z 90);
    reading "Meghalaya" "Shillong" (of_Z 40);
    reading "Mizoram" "Aizawl" (of_Z 160);
    reading "Nagaland" "Kohima" (of_Z 90);
    reading "Odisha" "Bhubaneswar" (of_Z 40);
    reading "Puducherry" "Puducherry" (of_Z 160);
    reading "Punjab" "Amritsar" (of_Z 90);
    reading "Rajasthan" "Jaipur" (of_Z 40);
    reading "Sikkim" "Gangtok" (of_Z 90);
    reading "Tamil Nadu" "Chennai" (of_Z 160);
    reading "Telangana" "Hyderabad" (of_Z 40);
    reading "Tripura" "Agartala" (of_Z 90);
    reading "Uttar Pradesh" "Lucknow" (of_Z 160);
    reading "Uttarakhand" "Dehradun" (of_Z 90);
    reading "West Bengal" "Kolkata" (of_Z 40) ].

(** A line of the file whose [last_update] cell holds the given text. *)
Definition raw_stamped (stamp : string) (st ci : string) (avg : float) : RawRow :=
  {| raw_state := Some st;
     raw_city := Some ci;
     raw_station := Some ci;
     raw_last_update := Some stamp;
     raw_latitude := of_Z 20;
     raw_longitude := of_Z 78;
     raw_pollutant_id := Some "PM2.5";
     raw_pollutant_min := avg;
     raw_pollutant_max := avg;
     raw_pollutant_avg := avg |}.

(** A parser that knows one spelling of a date only. *)
Definition strict_datetime : string -> option Z :=
  fun s => if String.eqb s "01-01-2025 10:00:00" then Some 0%Z else None.

End Samples.

(** ** Facts about float64 comparison *)

Module Float64Facts.
Import Float64.

Lemma SFcompare_rank (a b : float) :
  isnan a = false -> isnan b = false ->
  SFcompare a b = Some (lex_compare (rank a) (rank b)).
Proof.
  destruct a as [sa|sa| |sa ma ea], b as [sb|sb| |sb mb eb];
    simpl; try discriminate; intros _ _;
    try (destruct sa); try (destruct sb); try reflexivity.
  (* both negative: exponent and mantissa are compared the other way round *)
  f_equal. unfold lex_compare.
  change ((-1 ?= -1)%Z) with Eq. cbv iota.
  rewrite Z.compare_opp, (Z.compare_antisym ea eb).
  destruct (ea ?= eb)%Z; reflexivity.
Qed.

Lemma SFcompare_nan_l (b : float) : SFcompare S754_nan b = None.
Proof. reflexivity. Qed.

Lemma SFcompare_nan_r (a : float) : SFcompare a S754_nan = None.
Proof. now destruct a. Qed.

Lemma SFcompare_Some (a b : float) (c : comparison) :
  SFcompare a b = Some c -> isnan a = false /\ isnan b = false.
Proof.
  destruct a, b; simpl; try discriminate; auto.
Qed.

Lemma ltb_notnan (a b : float) : ltb a b = true -> isnan a = false /\ isnan b = false.
Proof.
  unfold ltb, SFltb. destruct (SFcompare a b) as [c|] eqn:E; [|discriminate].
  intros _. exact (SFcompare_Some _ _ _ E).
Qed.

Lemma leb_notnan (a b : float) : leb a b = true -> isnan a = false /\ isnan b = false.
Proof.
  unfold leb, SFleb. destruct (SFcompare a b) as [c|] eqn:E; [|discriminate].
  intros _. exact (SFcompare_Some _ _ _ E).
Qed.

(** Unfold a comparison between non-NaN values down to integer
    comparisons. *)
Ltac by_rank :=
  unfold leb, ltb, gtb, SFleb, SFltb, SFeqb;
  repeat match goal with
    | Ha : isnan ?a = false |- context [SFcompare ?a ?a] =>
        rewrite (SFcompare_rank a a Ha Ha)
    | Ha : isnan ?a = false, Hb : isnan ?b = false |- context [SFcompare ?a ?b] =>
        rewrite (SFcompare_rank a b Ha Hb)
    | Ha : isnan ?a = false, Hb : isnan ?b = false, H : context [SFcompare ?a ?b] |- _ =>
        rewrite (SFcompare_rank a b Ha Hb) in H
    end;
  repeat match goal with
    | |- context [rank ?a] =>
        let p := fresh "p" in let q := fresh "q" in let r := fresh "r" in
        destruct (rank a) as [[p q] r]
    | H : context [rank ?a] |- _ =>
        let p := fresh "p" in let q := fresh "q" in let r := fresh "r" in
        destruct (rank a) as [[p q] r]
    end;
  unfold lex_compare in *;
  repeat match goal with
    | |- context [(?x ?= ?y)%Z] => destruct (Z.compare_spec x y)
    | H : context [(?x ?= ?y)%Z] |- _ => destruct (Z.compare_spec x y)
    end;
  try reflexivity; try discriminate; try lia.

Lemma ltb_irrefl (a : float) : ltb a a = false.
Proof.
  destruct (isnan a) eqn:Ha.
  - destruct a; try discriminate. reflexivity.
  - by_rank.
Qed.

Lemma ltb_trans (a b c : float) : ltb a b = true -> ltb b c = true -> ltb a c = true.
Proof.
  intros Hab Hbc.
  destruct (ltb_notnan _ _ Hab) as [Ha Hb], (ltb_notnan _ _ Hbc) as [_ Hc].
  revert Hab Hbc. by_rank.
Qed.

Lemma ltb_negtrans (a b c : float) :
  isnan b = false ->
  ltb a b = false -> ltb b c = false -> ltb a c = false.
Proof.
  intros Hb.
  destruct (isnan a) eqn:Ha; [destruct a; try discriminate; reflexivity|].
  destruct (isnan c) eqn:Hc;
    [destruct c; try discriminate; intros _ _; unfold ltb, SFltb;
     now rewrite SFcompare_nan_r|].
  by_rank.
Qed.

Lemma leb_ltb (a b : float) :
  isnan a = false -> isnan b = false -> leb a b = negb (ltb b a).
Proof. intros Ha Hb. by_rank. Qed.

Lemma ltb_leb (a b : float) : ltb a b = true -> leb a b = true.
Proof.
  intros H. destruct (ltb_notnan _ _ H) as [Ha Hb]. revert H. by_rank.
Qed.

Lemma ltb_not_leb (a b : float) : ltb a b = true -> leb b a = false.
Proof.
  intros H. destruct (ltb_notnan _ _ H) as [Ha Hb]. revert H. by_rank.
Qed.

Lemma leb_trans (a b c : float) : leb a b = true -> leb b c = true -> leb a c = true.
Proof.
  intros Hab Hbc.
  destruct (leb_notnan _ _ Hab) as [Ha Hb], (leb_notnan _ _ Hbc) as [_ Hc].
  revert Hab Hbc. by_rank.
Qed.

Lemma ltb_leb_trans (a b c : float) : ltb a b = true -> leb b c = true -> ltb a c = true.
Proof.
  intros Hab Hbc.
  destruct (ltb_notnan _ _ Hab) as [Ha Hb], (leb_notnan _ _ Hbc) as [_ Hc].
  revert Hab Hbc. by_rank.
Qed.

Lemma leb_refl (a : float) : isnan a = false -> leb a a = true.
Proof. intros Ha. by_rank. Qed.

Lemma leb_nan_l (b : float) : leb nan b = false.
Proof. reflexivity. Qed.

Lemma leb_isnan (a b : float) : isnan a = true -> leb a b = false.
Proof. destruct a; try discriminate. reflexivity. Qed.

Lemma eqb_notnan (a b : float) : SFeqb a b = true -> isnan a = false /\ isnan b = false.
Proof.
  unfold SFeqb. destruct (SFcompare a b) as [c|] eqn:E; [|discriminate].
  intros _. exact (SFcompare_Some _ _ _ E).
Qed.

Lemma eqb_leb (a b : float) : SFeqb a b = true -> leb a b = true /\ leb b a = true.
Proof.
  intros H. destruct (eqb_notnan _ _ H) as [Ha Hb].
  split; revert H; by_rank.
Qed.

Lemma leb_antisym_eqb (a b : float) : leb a b = true -> leb b a = true -> SFeqb a b = true.
Proof.
  intros H H'. destruct (leb_notnan _ _ H) as [Ha Hb].
  revert H H'; by_rank.
Qed.

(** The cutoffs of the classifier are binary64 values. *)
Lemma cutoffs_valid :
  forallb (valid_binary prec emax) [of_Z 50; of_Z 100; of_Z 150; of_Z 200] = true.
Proof. reflexivity. Qed.

Lemma ltb_isnan_l (a b : float) : isnan a = true -> ltb a b = false.
Proof. destruct a; try discriminate. reflexivity. Qed.

Lemma ltb_isnan_r (a b : float) : isnan b = true -> ltb a b = false.
Proof.
  destruct b; try discriminate. intros _. unfold ltb, SFltb.
  now rewrite SFcompare_nan_r.
Qed.

Lemma eqb_isnan_l (a b : float) : isnan a = true -> SFeqb a b = false.
Proof. destruct a; try discriminate. reflexivity. Qed.

Lemma eqb_isnan_r (a b : float) : isnan b = true -> SFeqb a b = false.
Proof.
  destruct b; try discriminate. intros _. unfold SFeqb.
  now rewrite SFcompare_nan_r.
Qed.

Lemma leb_not_ltb (a b : float) : leb a b = true -> ltb b a = false.
Proof.
  intros H. destruct (leb_notnan _ _ H) as [Ha Hb]. revert H. by_rank.
Qed.

(** Two readings are equal when neither is below the other. *)
Lemma eqb_ltb (a b : float) :
  isnan a = false -> isnan b = false ->
  SFeqb a b = negb (ltb a b) && negb (ltb b a).
Proof. intros Ha Hb. by_rank. Qed.

End Float64Facts.

(** ** Facts about the order of strings *)

Module StringFacts.

Lemma ascii_compare_lt (a b : ascii) :
  Ascii.compare a b = Lt <-> (N_of_ascii a < N_of_ascii b)%N.
Proof. unfold Ascii.compare. apply N.compare_lt_iff. Qed.

Lemma ascii_compare_refl (a : ascii) : Ascii.compare a a = Eq.
Proof. unfold Ascii.compare. apply N.compare_refl. Qed.

Lemma string_compare_refl (s : string) : String.compare s s = Eq.
Proof.
  induction s as [|a s IH]; simpl; [reflexivity|].
  now rewrite ascii_compare_refl.
Qed.

Lemma string_compare_lt_trans (s1 s2 s3 : string) :
  String.compare s1 s2 = Lt -> String.compare s2 s3 = Lt -> String.compare s1 s3 = Lt.
Proof.
  revert s2 s3. induction s1 as [|a s1 IH]; intros [|b s2] [|c s3]; simpl;
    try discriminate; try reflexivity.
  intros H12 H23.
  destruct (Ascii.compare a b) eqn:Eab; try discriminate H12;
    destruct (Ascii.compare b c) eqn:Ebc; try discriminate H23.
  - apply Ascii.compare_eq_iff in Eab, Ebc. subst.
    rewrite ascii_compare_refl. now apply (IH s2).
  - apply Ascii.compare_eq_iff in Eab. subst. now rewrite Ebc.
  - apply Ascii.compare_eq_iff in Ebc. subst. now rewrite Eab.
  - assert (Hab := proj1 (ascii_compare_lt a b) Eab).
    assert (Hbc := proj1 (ascii_compare_lt b c) Ebc).
    assert (H : Ascii.compare a c = Lt) by (apply ascii_compare_lt; lia).
    now rewrite H.
Qed.

Lemma string_ltb_lt (s1 s2 : string) : String.ltb s1 s2 = true <-> String.compare s1 s2 = Lt.
Proof.
  unfold String.ltb. destruct (String.compare s1 s2); split; congruence.
Qed.

Lemma string_ltb_irrefl (s : string) : String.ltb s s = false.
Proof. unfold String.ltb. now rewrite string_compare_refl. Qed.

Lemma string_ltb_trans (s1 s2 s3 : string) :
  String.ltb s1 s2 = true -> String.ltb s2 s3 = true -> String.ltb s1 s3 = true.
Proof. rewrite !string_ltb_lt. apply string_compare_lt_trans. Qed.

(** Two strings are equal or one is below the other. *)
Lemma string_ltb_trichotomy (s1 s2 : string) :
  String.ltb s1 s2 = true \/ s1 = s2 \/ String.ltb s2 s1 = true.
Proof.
  rewrite !string_ltb_lt. rewrite (String.compare_antisym s2 s1).
  destruct (String.compare s1 s2) eqn:E; simpl; auto.
  right. left. now apply String.compare_eq_iff.
Qed.

Lemma string_ltb_negtrans (s1 s2 s3 : string) :
  String.ltb s1 s2 = false -> String.ltb s2 s3 = false -> String.ltb s1 s3 = false.
Proof.
  intros H12 H23. destruct (String.ltb s1 s3) eqn:H13; [|reflexivity].
  destruct (string_ltb_trichotomy s1 s2) as [H|[->|H]]; [congruence|congruence|].
  destruct (string_ltb_trichotomy s2 s3) as [H'|[->|H']]; [congruence|congruence|].
  assert (Hc := string_ltb_trans _ _ _ H13 (string_ltb_trans _ _ _ H' H)).
  now rewrite string_ltb_irrefl in Hc.
Qed.

Lemma string_ltb_strict_weak (l : list string) : Numpy.strict_weak_on String.ltb l.
Proof.
  repeat split.
  - intros a _. apply string_ltb_irrefl.
  - intros a b c _ _ _. apply string_ltb_trans.
  - intros a b c _ _ _. apply string_ltb_negtrans.
Qed.

End StringFacts.

(** ** Facts about lists used throughout *)

Module ListFacts.

Lemma StronglySorted_weaken {A : Type} (R R' : A -> A -> Prop) (P : A -> Prop) (l : list A) :
  (forall a b, P a -> P b -> R a b -> R' a b) ->
  Forall P l -> StronglySorted R l -> StronglySorted R' l.
Proof.
  intros HR HP HS. induction HS as [|a l HS IH Ha]; constructor.
  - apply IH. now inversion HP.
  - inversion HP as [|? ? Pa Pl]; subst.
    rewrite Forall_forall in *. intros b Hb. apply HR; auto.
Qed.

Lemma StronglySorted_app {A : Type} (R : A -> A -> Prop) (l1 l2 : list A) :
  StronglySorted R l1 -> StronglySorted R l2 ->
  (forall a b, In a l1 -> In b l2 -> R a b) ->
  StronglySorted R (l1 ++ l2).
Proof.
  intros H1 H2 H12. induction H1 as [|a l H1 IH Ha]; simpl; [assumption|].
  constructor.
  - apply IH. intros x y Hx Hy. apply H12; [now right|assumption].
  - apply Forall_app. split; [assumption|].
    apply Forall_forall. intros b Hb. apply H12; [now left|assumption].
Qed.

Lemma StronglySorted_rev {A : Type} (R : A -> A -> Prop) (l : list A) :
  StronglySorted R l -> StronglySorted (fun a b => R b a) (rev l).
Proof.
  induction 1 as [|a l HS IH Ha]; simpl; [constructor|].
  apply StronglySorted_app; [assumption|repeat constructor|].
  intros x y Hx [<-|[]]. rewrite Forall_forall in Ha.
  apply Ha. now apply in_rev.
Qed.

Lemma StronglySorted_firstn {A : Type} (R : A -> A -> Prop) (n : nat) (l : list A) :
  StronglySorted R l -> StronglySorted R (firstn n l).
Proof.
  intros HS. revert n. induction HS as [|a l HS IH Ha]; intros [|n]; simpl;
    try constructor.
  - apply IH.
  - rewrite Forall_forall in *. intros b Hb. apply Ha.
    rewrite <- (firstn_skipn n l). apply in_or_app. now left.
Qed.

Lemma Forall_firstn {A : Type} (P : A -> Prop) (n : nat) (l : list A) :
  Forall P l -> Forall P (firstn n l).
Proof.
  rewrite !Forall_forall. intros H x Hx. apply H.
  rewrite <- (firstn_skipn n l). apply in_or_app. now left.
Qed.

Lemma StronglySorted_filter {A : Type} (R : A -> A -> Prop) (f : A -> bool) (l : list A) :
  StronglySorted R l -> StronglySorted R (filter f l).
Proof.
  induction 1 as [|a l HS IH Ha]; simpl; [constructor|].
  destruct (f a); [|assumption].
  constructor; [assumption|].
  rewrite Forall_forall in *. intros b Hb. apply Ha.
  now apply filter_In in Hb.
Qed.

Lemma StronglySorted_pairwise {A : Type} (R : A -> A -> Prop) (l : list A) :
  (forall a b, In a l -> In b l -> R a b) -> StronglySorted R l.
Proof.
  induction l as [|a l IH]; intros H; constructor.
  - apply IH. intros x y Hx Hy. apply H; now right.
  - apply Forall_forall. intros b Hb. apply H; [now left|now right].
Qed.

Lemma filter_nothing {A : Type} (f : A -> bool) (l : list A) :
  (forall x, In x l -> f x = false) -> filter f l = [].
Proof.
  induction l as [|a t IH]; simpl; intros H; [reflexivity|].
  rewrite (H a (or_introl eq_refl)). apply IH. intros x Hx. apply H. now right.
Qed.

Lemma filter_partition_perm {A : Type} (f : A -> bool) (l : list A) :
  Permutation l (filter (fun x => negb (f x)) l ++ filter f l).
Proof.
  induction l as [|a l IH]; simpl; [constructor|].
  destruct (f a); simpl.
  - now apply Permutation_cons_app.
  - now constructor.
Qed.

End ListFacts.

(** ** Facts about the sorting kernels *)

Module NumpyFacts.
Import Numpy.

Section Insertion.
Context {A : Type} (ltb : A -> A -> bool) (P : A -> Prop).
Hypothesis irrefl : forall a, P a -> ltb a a = false.
Hypothesis trans : forall a b c, P a -> P b -> P c ->
                                 ltb a b = true -> ltb b c = true -> ltb a c = true.
Hypothesis negtrans : forall a b c, P a -> P b -> P c ->
                                    ltb a b = false -> ltb b c = false -> ltb a c = false.

Lemma asym (a b : A) : P a -> P b -> ltb a b = true -> ltb b a = false.
Proof.
  intros Pa Pb Hab. destruct (ltb b a) eqn:Hba; [|reflexivity].
  rewrite <- (irrefl a Pa). symmetry. now apply (trans a b a).
Qed.

Lemma insert_first_perm (x : A) (l : list A) : Permutation (x :: l) (insert_first ltb x l).
Proof.
  induction l as [|y t IH]; simpl; [reflexivity|].
  destruct (ltb y x); [|reflexivity].
  rewrite perm_swap. now constructor.
Qed.

Lemma insert_last_perm (x : A) (l : list A) : Permutation (x :: l) (insert_last ltb x l).
Proof.
  induction l as [|y t IH]; simpl; [reflexivity|].
  destruct (ltb x y); [reflexivity|].
  rewrite perm_swap. now constructor.
Qed.

Lemma insert_first_ascending (x : A) (l : list A) :
  P x -> Forall P l -> ascending ltb l -> ascending ltb (insert_first ltb x l).
Proof.
  unfold ascending. intros Px Pl HS.
  induction HS as [|y t HS IH Hy]; simpl; [repeat constructor|].
  inversion Pl as [|? ? Py Pt]; subst.
  destruct (ltb y x) eqn:Hyx.
  - constructor; [now apply IH|].
    apply (Permutation_Forall (insert_first_perm x t)).
    constructor; [now apply asym|assumption].
  - constructor; [now constructor|].
    constructor; [assumption|].
    rewrite Forall_forall in *. intros z Hz.
    apply (negtrans z y x); auto.
Qed.

Lemma insert_last_ascending (x : A) (l : list A) :
  P x -> Forall P l -> ascending ltb l -> ascending ltb (insert_last ltb x l).
Proof.
  unfold ascending. intros Px Pl HS.
  induction HS as [|y t HS IH Hy]; simpl; [repeat constructor|].
  inversion Pl as [|? ? Py Pt]; subst.
  destruct (ltb x y) eqn:Hxy.
  - constructor; [now constructor|].
    constructor; [now apply asym|].
    rewrite Forall_forall in *. intros z Hz.
    destruct (ltb z x) eqn:Hzx; [|reflexivity].
    rewrite <- (Hy z Hz). symmetry. apply (trans z x y); auto.
  - constructor; [now apply IH|].
    apply (Permutation_Forall (insert_last_perm x t)).
    now constructor.
Qed.

(** Inserting [y] puts it in front of the elements that compare equal to
    it: those it passes are strictly below it. *)
Lemma ties_insert_first (x y : A) (l : list A) :
  P x -> P y -> Forall P l ->
  ties ltb x (insert_first ltb y l) = ties ltb x (y :: l).
Proof.
  intros Px Py Pl. induction Pl as [|z t Pz Pt IH]; [reflexivity|].
  simpl insert_first. destruct (ltb z y) eqn:Hzy; [|reflexivity].
  unfold ties in *. simpl in *. rewrite IH.
  destruct (ltb x z) eqn:Hxz; simpl; [reflexivity|].
  destruct (ltb z x) eqn:Hzx; simpl; [reflexivity|].
  destruct (ltb x y) eqn:Hxy; simpl; [reflexivity|].
  destruct (ltb y x) eqn:Hyx; simpl; [reflexivity|].
  rewrite (negtrans z x y Pz Px Py Hzx Hxy) in Hzy. discriminate.
Qed.

End Insertion.

Lemma insertion_sort_perm {A : Type} (ltb : A -> A -> bool) (xs : list A) :
  Permutation xs (insertion_sort A ltb xs).
Proof.
  unfold insertion_sort. induction xs as [|x t IH]; simpl; [constructor|].
  rewrite <- insert_first_perm. now constructor.
Qed.

Lemma reversing_sort_perm {A : Type} (ltb : A -> A -> bool) (xs : list A) :
  Permutation xs (reversing_sort A ltb xs).
Proof.
  unfold reversing_sort. induction xs as [|x t IH]; simpl; [constructor|].
  rewrite <- insert_last_perm. now constructor.
Qed.

Lemma insertion_sort_sorts : sorts insertion_sort.
Proof.
  intros A ltb xs. split; [apply insertion_sort_perm|].
  intros (Hirr & Htr & Hneg).
  assert (G : forall l, incl l xs -> ascending ltb (insertion_sort A ltb l)).
  { induction l as [|x t IH]; intros Hl; simpl; [constructor|].
    apply (insert_first_ascending ltb (fun a => In a xs)); auto.
    - apply Hl. now left.
    - apply (Permutation_Forall (insertion_sort_perm ltb t)).
      apply Forall_forall. intros z Hz. apply Hl. now right.
    - apply IH. intros z Hz. apply Hl. now right. }
  apply G, incl_refl.
Qed.

Lemma reversing_sort_sorts : sorts reversing_sort.
Proof.
  intros A ltb xs. split; [apply reversing_sort_perm|].
  intros (Hirr & Htr & Hneg).
  assert (G : forall l, incl l xs -> ascending ltb (reversing_sort A ltb l)).
  { induction l as [|x t IH]; intros Hl; simpl; [constructor|].
    apply (insert_last_ascending ltb (fun a => In a xs)); auto.
    - apply Hl. now left.
    - apply (Permutation_Forall (reversing_sort_perm ltb t)).
      apply Forall_forall. intros z Hz. apply Hl. now right.
    - apply IH. intros z Hz. apply Hl. now right. }
  apply G, incl_refl.
Qed.

Lemma insertion_sort_stable : stable insertion_sort.
Proof.
  intros A ltb xs x (Hirr & Htr & Hneg).
  assert (G : forall l, incl l xs ->
                        ties ltb x (insertion_sort A ltb l) = ties ltb x l).
  { induction l as [|y t IH]; intros Hl; [reflexivity|].
    change (insertion_sort A ltb (y :: t))
      with (insert_first ltb y (insertion_sort A ltb t)).
    rewrite (ties_insert_first ltb (fun a => In a (x :: xs))); auto.
    - unfold ties in *. simpl. rewrite IH; [reflexivity|].
      intros z Hz. apply Hl. now right.
    - now left.
    - right. apply Hl. now left.
    - apply (Permutation_Forall (insertion_sort_perm ltb t)).
      apply Forall_forall. intros z Hz. right. apply Hl. now right. }
  apply G, incl_refl.
Qed.

(** Any kernel that sorts returns the empty list on the empty list. *)
Lemma sorts_nil (sort : kernel) (A : Type) (ltb : A -> A -> bool) :
  sorts sort -> sort A ltb [] = [].
Proof.
  intros H. destruct (H A ltb []) as [Hp _]. now apply Permutation_nil.
Qed.

End NumpyFacts.

(** ** Facts about the Series operations *)

Module PandasFacts.
Import Float64 Float64Facts Numpy NumpyFacts Pandas ListFacts StringFacts.

(** *** [max] *)

Lemma dropna_In (xs : list float) (x : float) :
  In x (dropna xs) <-> In x xs /\ isnan x = false.
Proof.
  unfold dropna, notna. rewrite filter_In, negb_true_iff. reflexivity.
Qed.

Lemma fmax_cases (a b : float) :
  isnan a = false -> isnan b = false ->
  (fmax a b = a \/ fmax a b = b) /\ leb a (fmax a b) = true /\ leb b (fmax a b) = true.
Proof.
  intros Ha Hb. unfold fmax. destruct (ltb a b) eqn:E.
  - repeat split; [now right|now apply ltb_leb|now apply leb_refl].
  - repeat split; [now left|now apply leb_refl|].
    rewrite leb_ltb by assumption. now rewrite E.
Qed.

Lemma fold_fmax_spec (t : list float) (x : float) :
  isnan x = false -> Forall (fun y => isnan y = false) t ->
  let m := fold_left fmax t x in
  isnan m = false /\ In m (x :: t) /\ Forall (fun y => leb y m = true) (x :: t).
Proof.
  revert x. induction t as [|y t IH]; intros x Hx Ht; simpl.
  - repeat split; [assumption|now left|].
    constructor; [now apply leb_refl|constructor].
  - inversion Ht as [|? ? Hy Ht']; subst.
    destruct (fmax_cases x y Hx Hy) as (Hc & Hxm & Hym).
    assert (Hm : isnan (fmax x y) = false) by (destruct Hc as [->| ->]; assumption).
    destruct (IH (fmax x y) Hm Ht') as (Hn & Hin & Hall). simpl in Hn, Hin, Hall.
    inversion Hall as [|? ? Hhd Htl]; subst.
    repeat split.
    + assumption.
    + destruct Hin as [Hin|Hin]; [|now right; right].
      rewrite <- Hin. destruct Hc as [->| ->]; [now left|now right; left].
    + constructor; [now apply (leb_trans _ _ _ Hxm)|].
      constructor; [now apply (leb_trans _ _ _ Hym)|assumption].
Qed.

(** [max] returns NaN exactly when the column has no reading; otherwise it
    returns a reading of the column that bounds all the others. *)
Lemma max_spec (xs : list float) :
  (max xs = nan /\ forall x, In x xs -> isnan x = true) \/
  (isnan (max xs) = false /\ In (max xs) xs /\
   forall x, In x xs -> isnan x = false -> leb x (max xs) = true).
Proof.
  unfold max. destruct (dropna xs) as [|x t] eqn:E.
  - left. split; [reflexivity|]. intros x Hx.
    destruct (isnan x) eqn:Hn; [reflexivity|].
    assert (H : In x (dropna xs)) by (apply dropna_In; auto).
    rewrite E in H. destruct H.
  - right.
    assert (Hall : Forall (fun y => isnan y = false) (x :: t)).
    { apply Forall_forall. intros y Hy. rewrite <- E in Hy.
      now apply dropna_In in Hy. }
    inversion Hall as [|? ? Hx Ht]; subst.
    destruct (fold_fmax_spec t x Hx Ht) as (Hn & Hin & Hle). cbv zeta in Hn, Hin, Hle.
    repeat split.
    + assumption.
    + rewrite <- E in Hin. now apply dropna_In in Hin.
    + intros y Hy Hny. rewrite Forall_forall in Hle. apply Hle.
      rewrite <- E. apply dropna_In. auto.
Qed.

(** *** [unique], [count] and [value_counts] *)

Lemma unique_In (l : list string) (x : string) : In x (unique l) <-> In x l.
Proof.
  induction l as [|a t IH]; simpl; [reflexivity|].
  rewrite filter_In, IH, negb_true_iff.
  destruct (String.eqb_spec a x) as [->|Hne]; [tauto|].
  split; [tauto|]. intros [H|H]; [now left|now right].
Qed.

Lemma unique_NoDup (l : list string) : NoDup (unique l).
Proof.
  induction l as [|a t IH]; simpl; constructor.
  - rewrite filter_In, negb_true_iff, String.eqb_refl. intros [_ H]. discriminate.
  - now apply NoDup_filter.
Qed.

Definition total_by (f : string -> nat) (l : list string) : nat :=
  fold_right Nat.add 0 (map f l).

Lemma existsb_eqb_notin (u : list string) (y : string) :
  ~ In y u -> existsb (String.eqb y) u = false.
Proof.
  intros Hy. apply not_true_is_false. intros H.
  apply existsb_exists in H. destruct H as (z & Hz & Hzy).
  apply String.eqb_eq in Hzy. subst. contradiction.
Qed.

Lemma total_by_split (f : string -> nat) (a : string) (u : list string) :
  NoDup u ->
  total_by f u =
  (if existsb (String.eqb a) u then f a else 0)
  + total_by f (filter (fun y => negb (String.eqb a y)) u).
Proof.
  unfold total_by. induction 1 as [|y u Hy Hu IH]; simpl; [reflexivity|].
  destruct (String.eqb_spec a y) as [->|Hne]; simpl.
  - rewrite (existsb_eqb_notin u y Hy) in IH. simpl in IH. now rewrite <- IH.
  - rewrite IH. lia.
Qed.

Lemma count_nil_notin (l : list string) (x : string) :
  existsb (String.eqb x) l = false -> count l x = 0.
Proof.
  unfold count. induction l as [|a t IH]; simpl; [reflexivity|].
  destruct (String.eqb x a); simpl; [discriminate|assumption].
Qed.

Lemma existsb_unique (l : list string) (x : string) :
  existsb (String.eqb x) (unique l) = existsb (String.eqb x) l.
Proof.
  apply eq_true_iff_eq. rewrite !existsb_exists.
  split; intros (y & Hy & E); exists y; (split; [|assumption]);
    now apply unique_In.
Qed.

(** The counts of the distinct values of a column add up to its length. *)
Lemma total_count_unique (l : list string) :
  total_by (count l) (unique l) = List.length l.
Proof.
  induction l as [|a t IH]; [reflexivity|].
  change (unique (a :: t)) with (a :: filter (fun y => negb (String.eqb a y)) (unique t)).
  unfold total_by. simpl map. simpl fold_right.
  assert (Hca : count (a :: t) a = S (count t a)).
  { unfold count. simpl. now rewrite String.eqb_refl. }
  assert (Hrest : map (count (a :: t)) (filter (fun y => negb (String.eqb a y)) (unique t))
                  = map (count t) (filter (fun y => negb (String.eqb a y)) (unique t))).
  { apply map_ext_in. intros y Hy. apply filter_In in Hy. destruct Hy as [_ Hy].
    apply negb_true_iff in Hy. unfold count. simpl.
    rewrite String.eqb_sym in Hy. now rewrite Hy. }
  rewrite Hca, Hrest. simpl. f_equal.
  rewrite <- IH, (total_by_split (count t) a (unique t) (unique_NoDup t)).
  unfold total_by. f_equal.
  rewrite existsb_unique.
  destruct (existsb (String.eqb a) t) eqn:E; [reflexivity|].
  now apply count_nil_notin.
Qed.

Lemma total_perm (s s' : Series string nat) :
  Permutation s s' ->
  fold_right Nat.add 0 (map snd s) = fold_right Nat.add 0 (map snd s').
Proof.
  induction 1; simpl; lia.
Qed.

(** *** [sort_values] *)

Section SortValues.
Variable sort : kernel.
Hypothesis sort_ok : sorts sort.

Lemma sort_values_perm {L V : Type} (isna : V -> bool) (lt : V -> V -> bool)
      (asc : bool) (s : Series L V) :
  Permutation s (sort_values sort isna lt asc s).
Proof.
  unfold sort_values.
  rewrite (filter_partition_perm (fun r => isna (snd r)) s) at 1.
  apply Permutation_app_tail.
  destruct asc.
  - apply sort_ok.
  - rewrite <- Permutation_rev.
    rewrite <- (proj1 (sort_ok _ _ _)).
    apply Permutation_rev.
Qed.

Lemma sort_values_nil {L V : Type} (isna : V -> bool) (lt : V -> V -> bool) (asc : bool) :
  sort_values sort isna lt asc (@nil (L * V)) = [].
Proof.
  apply Permutation_nil. apply sort_values_perm.
Qed.

(** Comparing rows of a float Series by value is a strict weak order as
    long as no value is NaN. *)
Lemma by_value_strict_weak {L : Type} (s : Series L float) :
  Forall (fun r => isnan (snd r) = false) s ->
  strict_weak_on (fun a b : L * float => ltb (snd a) (snd b)) s.
Proof.
  rewrite Forall_forall. intros Hs. repeat split.
  - intros a _. apply ltb_irrefl.
  - intros a b c _ _ _. apply ltb_trans.
  - intros a b c _ Hb _. apply ltb_negtrans. now apply Hs.
Qed.

Lemma non_nans_Forall {L : Type} (s : Series L float) :
  Forall (fun r => isnan (snd r) = false) (filter (fun r => negb (isnan (snd r))) s).
Proof.
  apply Forall_forall. intros r Hr. apply filter_In in Hr.
  now apply negb_true_iff.
Qed.

Lemma nans_Forall {L : Type} (s : Series L float) :
  Forall (fun r => isnan (snd r) = true) (filter (fun r => isnan (snd r)) s).
Proof.
  apply Forall_forall. intros r Hr. now apply filter_In in Hr.
Qed.

(** The kernel's output on NaN-free rows, read with [<=]. *)
Lemma kernel_sorted_leb {L : Type} (s : Series L float) :
  Forall (fun r => isnan (snd r) = false) s ->
  Forall (fun r => isnan (snd r) = false)
         (sort _ (fun a b : L * float => ltb (snd a) (snd b)) s) /\
  StronglySorted (fun a b => leb (snd a) (snd b) = true)
                 (sort _ (fun a b : L * float => ltb (snd a) (snd b)) s).
Proof.
  intros Hs.
  destruct (sort_ok _ (fun a b : L * float => ltb (snd a) (snd b)) s) as [Hp Ha].
  assert (Hs' := Permutation_Forall Hp Hs).
  split; [assumption|].
  eapply StronglySorted_weaken; [|exact Hs'|exact (Ha (by_value_strict_weak s Hs))].
  intros a b Pa Pb H. simpl in *. rewrite leb_ltb by assumption. now rewrite H.
Qed.

Lemma sort_values_ascending {L : Type} (s : Series L float) :
  exists rated unrated,
    sort_values sort isnan ltb true s = rated ++ unrated /\
    Forall (fun r => isnan (snd r) = false) rated /\
    Forall (fun r => isnan (snd r) = true) unrated /\
    StronglySorted (fun a b : L * float => leb (snd a) (snd b) = true) rated.
Proof.
  unfold sort_values.
  destruct (kernel_sorted_leb _ (non_nans_Forall s)) as [Hf Hs].
  eexists _, _. split; [reflexivity|].
  repeat split; [exact Hf|apply nans_Forall|exact Hs].
Qed.

Lemma sort_values_descending {L : Type} (s : Series L float) :
  exists rated unrated,
    sort_values sort isnan ltb false s = rated ++ unrated /\
    Forall (fun r => isnan (snd r) = false) rated /\
    Forall (fun r => isnan (snd r) = true) unrated /\
    StronglySorted (fun a b : L * float => leb (snd b) (snd a) = true) rated.
Proof.
  unfold sort_values.
  assert (Hr : Forall (fun r : L * float => isnan (snd r) = false)
                      (rev (filter (fun r => negb (isnan (snd r))) s))).
  { apply Forall_rev, non_nans_Forall. }
  destruct (kernel_sorted_leb _ Hr) as [Hf Hs].
  eexists _, _. split; [reflexivity|].
  repeat split.
  - now apply Forall_rev.
  - apply nans_Forall.
  - now apply StronglySorted_rev in Hs.
Qed.

(** *** [groupby] *)

Lemma group_keys_NoDup (keys : list (option string)) : NoDup (group_keys sort keys).
Proof.
  unfold group_keys.
  eapply Permutation_NoDup; [apply sort_ok|apply unique_NoDup].
Qed.

Lemma groupby_mean_keys {R : Type} (key : R -> option string) (val : R -> float)
      (df : list R) :
  map fst (groupby_mean sort key val df) = group_keys sort (map key df).
Proof.
  unfold groupby_mean. rewrite map_map. simpl. apply map_id.
Qed.

Lemma groupby_mean_nil {R : Type} (key : R -> option string) (val : R -> float) :
  groupby_mean sort key val [] = [].
Proof.
  unfold groupby_mean, group_keys. simpl.
  now rewrite (sorts_nil sort string String.ltb sort_ok).
Qed.

(** The group keys are strictly increasing. *)
Lemma group_keys_increasing (keys : list (option string)) :
  StronglySorted (fun a b => String.ltb a b = true) (group_keys sort keys).
Proof.
  assert (Hn := group_keys_NoDup keys). unfold group_keys in *.
  destruct (sort_ok _ String.ltb (unique (present keys))) as [_ Ha].
  specialize (Ha (string_ltb_strict_weak _)). unfold ascending in Ha.
  induction Ha as [|a l Ha IH Hall]; constructor.
  - apply IH. now inversion Hn.
  - inversion Hn as [|? ? Hnotin _]; subst.
    rewrite Forall_forall in *. intros b Hb.
    destruct (string_ltb_trichotomy a b) as [H|[->|H]];
      [assumption|contradiction|].
    rewrite (Hall b Hb) in H. discriminate.
Qed.

Lemma groupby_mean_increasing {R : Type} (key : R -> option string) (val : R -> float)
      (df : list R) :
  StronglySorted (fun a b : string * float => String.ltb (fst a) (fst b) = true)
                 (groupby_mean sort key val df).
Proof.
  assert (H := group_keys_increasing (map key df)).
  rewrite <- (groupby_mean_keys key val df) in H.
  induction (groupby_mean sort key val df) as [|a l IH]; [constructor|].
  simpl in H. inversion H as [|? ? Hs Hall]; subst.
  constructor; [now apply IH|].
  now rewrite Forall_map in Hall.
Qed.

(** Rows of a descending sort that have equal values stay in their input
    order when the kernel is stable: the two reversals cancel. *)
Lemma sort_values_descending_ties {L : Type} (s : Series L float) (x : L * float) :
  stable sort -> isnan (snd x) = false ->
  let by_value := fun a b : L * float => ltb (snd a) (snd b) in
  let non_nans := filter (fun r => negb (isnan (snd r))) s in
  ties by_value x (rev (sort _ by_value (rev non_nans))) = ties by_value x non_nans.
Proof.
  intros Hst Hx by_value non_nans. unfold ties.
  rewrite filter_rev.
  fold (ties by_value x (sort _ by_value (rev non_nans))).
  rewrite Hst.
  - unfold ties. now rewrite filter_rev, rev_involutive.
  - apply by_value_strict_weak. constructor; [assumption|].
    apply Forall_rev, non_nans_Forall.
Qed.

End SortValues.

End PandasFacts.

(** ** The classifier *)

Module MainFacts.
Import Float64 Float64Facts Numpy NumpyFacts Pandas PandasFacts ListFacts Main Spec.

Lemma label_inj (t t' : tier) : label t = label t' -> t = t'.
Proof. destruct t, t'; simpl; intros H; try reflexivity; discriminate. Qed.

Lemma aqi_category_label (v : float) : exists t, aqi_category v = label t.
Proof.
  unfold aqi_category.
  destruct (leb v (of_Z 50)); [now exists Good|].
  destruct (leb v (of_Z 100)); [now exists Moderate|].
  destruct (leb v (of_Z 150)); [now exists UnhealthySensitive|].
  destruct (leb v (of_Z 200)); [now exists Unhealthy|].
  now exists Hazardous.
Qed.

(** A value above a cutoff fails the test against every cutoff up to it. *)
Lemma above_cutoff (c c' : Z) (v : float) :
  leb (of_Z c') (of_Z c) = true -> ltb (of_Z c) v = true -> leb v (of_Z c') = false.
Proof.
  intros Hcc Hv. destruct (leb v (of_Z c')) eqn:E; [|reflexivity].
  assert (H := ltb_leb_trans _ _ _ Hv (leb_trans _ _ _ E Hcc)).
  now rewrite ltb_irrefl in H.
Qed.

Lemma aqi_category_tier_of (v : float) (t : tier) : tier_of v t -> aqi_category v = label t.
Proof.
  unfold aqi_category, gtb.
  destruct 1 as [H | H1 H2 | H1 H2 | H1 H2 | H].
  - now rewrite H.
  - rewrite (above_cutoff 50 50 v eq_refl H1). now rewrite H2.
  - rewrite (above_cutoff 100 50 v eq_refl H1), (above_cutoff 100 100 v eq_refl H1).
    now rewrite H2.
  - rewrite (above_cutoff 150 50 v eq_refl H1), (above_cutoff 150 100 v eq_refl H1),
      (above_cutoff 150 150 v eq_refl H1).
    now rewrite H2.
  - now rewrite (above_cutoff 200 50 v eq_refl H), (above_cutoff 200 100 v eq_refl H),
      (above_cutoff 200 150 v eq_refl H), (above_cutoff 200 200 v eq_refl H).
Qed.

Lemma aqi_category_isnan (v : float) : isnan v = true -> aqi_category v = label Hazardous.
Proof.
  intros H. unfold aqi_category. now rewrite !(leb_isnan v _ H).
Qed.

(** *** The loader *)

Lemma traverse_Forall2 {A B : Type} (f : A -> option B) (l : list A) (l' : list B) :
  traverse f l = Some l' -> Forall2 (fun a b => f a = Some b) l l'.
Proof.
  revert l'. induction l as [|a t IH]; simpl; intros l' H.
  - injection H as <-. constructor.
  - destruct (f a) as [b|] eqn:Ea; [|discriminate].
    destruct (traverse f t) as [bs|]; [|discriminate].
    injection H as <-. constructor; auto.
Qed.

Lemma load_row_category (to_datetime : string -> option Z) (r : RawRow) (r' : Row) :
  load_row to_datetime r = Some r' ->
  pollutant_avg r' = raw_pollutant_avg r /\
  AQI_Category r' = aqi_category (pollutant_avg r').
Proof.
  unfold load_row. destruct (parse_cell to_datetime (raw_last_update r)); [|discriminate].
  intros H. injection H as <-. simpl. auto.
Qed.

Lemma load_data_categorized (read_csv : string -> option (list RawRow))
      (to_datetime : string -> option Z) (source : string) (df : DataFrame) :
  load_data read_csv to_datetime source = Some df -> categorized df.
Proof.
  unfold load_data, categorized. destruct (read_csv source) as [raw|]; [|discriminate].
  intros H. apply traverse_Forall2 in H.
  induction H as [|r r' raw' df' Hr _ IH]; constructor; [|assumption].
  now apply load_row_category in Hr.
Qed.

(** *** The filter *)

Lemma cell_eqb_eq (a b : option string) : cell_eqb a b = true <-> a = b.
Proof.
  destruct a as [x|], b as [y|]; simpl; try (split; [discriminate|congruence]).
  - rewrite String.eqb_eq. split; congruence.
  - tauto.
Qed.

Lemma isin_In (values : list (option string)) (c : option string) :
  isin values c = true <-> In c values.
Proof.
  unfold isin. rewrite existsb_exists. split.
  - intros (v & Hv & E). apply cell_eqb_eq in E. now subst.
  - intros H. exists c. split; [assumption|now apply cell_eqb_eq].
Qed.

(** *** Rankings *)

Lemma ranked_ascending_never_decreasing (s : Series string float) :
  ranked_ascending s -> never_decreasing s.
Proof.
  intros (rated & unrated & -> & Hr & Hu & Hs). unfold never_decreasing.
  rewrite Forall_forall in Hu.
  apply StronglySorted_app.
  - eapply StronglySorted_weaken; [|exact Hr|exact Hs].
    intros a b _ _ H. now apply leb_not_ltb.
  - apply StronglySorted_pairwise. intros a b _ Hb.
    apply ltb_isnan_l. now apply Hu.
  - intros a b _ Hb. apply ltb_isnan_l. now apply Hu.
Qed.

Lemma ranked_descending_never_increasing (s : Series string float) :
  ranked_descending s -> never_increasing s.
Proof.
  intros (rated & unrated & -> & Hr & Hu & Hs). unfold never_increasing.
  rewrite Forall_forall in Hu.
  apply StronglySorted_app.
  - eapply StronglySorted_weaken; [|exact Hr|exact Hs].
    intros a b _ _ H. now apply leb_not_ltb.
  - apply StronglySorted_pairwise. intros a b _ Hb.
    apply ltb_isnan_r. now apply Hu.
  - intros a b _ Hb. apply ltb_isnan_r. now apply Hu.
Qed.

(** If every class of rows with equal means is ordered by label, rows with
    equal means appear in ascending order of their labels. *)
Lemma ties_by_name_classes (s : Series string float) :
  (forall x : string * float,
      StronglySorted (fun a b => String.ltb (fst a) (fst b) = true)
                     (filter (fun y => SFeqb (snd x) (snd y)) s)) ->
  ties_by_name s.
Proof.
  induction s as [|a t IH]; intros H; simpl; [exact I|]. split.
  - apply Forall_forall. intros b Hb Hab.
    specialize (H a). cbn [filter] in H.
    destruct (eqb_notnan _ _ Hab) as [Ha _].
    assert (Haa : SFeqb (snd a) (snd a) = true).
    { apply leb_antisym_eqb; now apply leb_refl. }
    unfold float in *. rewrite Haa in H. inversion H as [|? ? _ Hall]; subst.
    rewrite Forall_forall in Hall. apply Hall. apply filter_In. auto.
  - apply IH. intros x. specialize (H x). cbn [filter] in H.
    unfold float in *.
    destruct (SFeqb (snd x) (snd a)); [now inversion H|assumption].
Qed.

(** *** Heads and totals *)

Lemma ranked_firstn (le : float -> float -> bool) (n : nat) (s : Series string float) :
  ranked le s -> ranked le (firstn n s).
Proof.
  intros (rated & unrated & -> & Hr & Hu & Hs).
  exists (firstn n rated), (firstn (n - List.length rated) unrated).
  split; [apply firstn_app|].
  repeat split.
  - now apply Forall_firstn.
  - now apply Forall_firstn.
  - now apply StronglySorted_firstn.
Qed.

Lemma value_counts_total (sort : kernel) (l : list string) :
  sorts sort -> total (value_counts sort l) = List.length l.
Proof.
  intros Hs. unfold total, value_counts.
  rewrite <- (total_perm _ _ (sort_values_perm sort Hs _ _ _ _)).
  rewrite map_map. simpl. apply total_count_unique.
Qed.

(** *** The tests decide their properties *)

Lemma never_increasingb_sound (s : Series string float) :
  never_increasingb s = true -> never_increasing s.
Proof.
  unfold never_increasing.
  induction s as [|a t IH]; simpl; intros H; constructor;
    apply andb_true_iff in H; destruct H as [Ha Ht].
  - now apply IH.
  - apply Forall_forall. intros b Hb.
    rewrite forallb_forall in Ha. apply negb_true_iff. now apply Ha.
Qed.

Lemma ties_by_nameb_complete (s : Series string float) :
  ties_by_name s -> ties_by_nameb s = true.
Proof.
  induction s as [|a t IH]; simpl; [reflexivity|]. intros [Ha Ht].
  apply andb_true_iff. split; [|now apply IH].
  apply forallb_forall. intros b Hb. rewrite Forall_forall in Ha.
  destruct (SFeqb (snd a) (snd b)) eqn:E; [|reflexivity].
  simpl. now apply Ha.
Qed.

End MainFacts.

(** ** Properties of the dashboard core *)

Module Properties.
Import Float64 Float64Facts Numpy NumpyFacts Pandas PandasFacts ListFacts.
Import Main Spec MainFacts Samples.

(** C1. For every pollutant_avg value [v], [aqi_category v] is exactly one of
    the five fixed labels, and it follows the thresholds: v <= 50 gives Good,
    50 < v <= 100 Moderate, 100 < v <= 150 Unhealthy (Sensitive),
    150 < v <= 200 Unhealthy and v > 200 Hazardous.  The boundary values 50,
    100, 150 and 200 go to the less severe side. *)
Theorem aqi_category_thresholds (v : float) :
  (exists! t, aqi_category v = label t) /\
  (forall t, tier_of v t -> aqi_category v = label t) /\
  aqi_category (of_Z 50) = label Good /\
  aqi_category (of_Z 100) = label Moderate /\
  aqi_category (of_Z 150) = label UnhealthySensitive /\
  aqi_category (of_Z 200) = label Unhealthy.
Proof.
  split; [|split; [apply aqi_category_tier_of|repeat split]].
  destruct (aqi_category_label v) as [t Ht].
  exists t. split; [assumption|].
  intros t' Ht'. apply label_inj. congruence.
Qed.

Lemma aqi_category_thresholds_witness :
  tier_of (of_Z 75) Moderate /\ aqi_category (of_Z 75) = label Moderate.
Proof.
  assert (H : tier_of (of_Z 75) Moderate) by (apply tier_moderate; reflexivity).
  split; [exact H|].
  exact (proj1 (proj2 (aqi_category_thresholds (of_Z 75))) Moderate H).
Defined.

(** C10. A record whose pollutant_avg is missing (NaN) still gets a category,
    and that category is Hazardous: every comparison with NaN is false, so
    the classifier reaches its last branch.  Hence every record of a loaded
    frame carries one of the five labels, and its missing readings sit in the
    most severe tier. *)
Theorem missing_reading_is_hazardous
        (read_csv : string -> option (list RawRow)) (to_datetime : string -> option Z)
        (source : string) (df : DataFrame) :
  load_data read_csv to_datetime source = Some df ->
  aqi_category nan = label Hazardous /\
  Forall (fun r => (exists t, AQI_Category r = label t) /\
                   (isnan (pollutant_avg r) = true -> AQI_Category r = label Hazardous))
         df.
Proof.
  intros H. split; [reflexivity|].
  apply load_data_categorized in H.
  unfold categorized in H. rewrite Forall_forall in *.
  intros r Hr. rewrite (H r Hr). split.
  - apply aqi_category_label.
  - apply aqi_category_isnan.
Qed.

Lemma missing_reading_is_hazardous_witness :
  load_data (csv_with [raw_reading "Goa" "Panaji" nan]) midnight "AQI.csv"
  = Some silent_station /\
  Forall (fun r => AQI_Category r = label Hazardous) silent_station.
Proof.
  assert (H : load_data (csv_with [raw_reading "Goa" "Panaji" nan]) midnight "AQI.csv"
              = Some silent_station) by reflexivity.
  split; [exact H|].
  destruct (missing_reading_is_hazardous _ _ _ _ H) as [_ Hall].
  inversion Hall as [|r l [_ Hr] _]; subst.
  constructor; [|constructor]. apply Hr. reflexivity.
Defined.

(** C9. Loading is idempotent and deterministic: two calls of the cached
    loader on the same source give the same outcome, which is the outcome of
    the uncached body: the same records with the same derived categories in
    the same order, or a failure both times. *)
Theorem load_data_idempotent
        (read_csv : string -> option (list RawRow)) (to_datetime : string -> option Z)
        (source : string) :
  let first := load_data_cached read_csv to_datetime None source in
  let second := load_data_cached read_csv to_datetime (snd first) source in
  fst first = load_data read_csv to_datetime source /\
  fst second = fst first /\
  snd second = snd first.
Proof.
  unfold load_data_cached.
  destruct (load_data read_csv to_datetime source) as [df|]; simpl; auto.
Qed.

(** C6. With an empty selection the filter returns the whole frame unchanged,
    for either column, and not the empty view.  The membership mask alone
    would select no record; it is the guard on the selection that keeps them
    all. *)
Theorem empty_selection_keeps_all (o : filter_option) (df : DataFrame) :
  filtered_df o [] df = df /\
  filter (fun r => isin [] (column o r)) df = [].
Proof.
  split; [reflexivity|].
  apply filter_nothing. intros r _. reflexivity.
Qed.

(** C7. With a non-empty selection none of whose values occurs in the chosen
    column, the filter returns the empty frame; it does not fail. *)
Theorem foreign_selection_keeps_none
        (o : filter_option) (selected : list (option string)) (df : DataFrame) :
  selected <> [] ->
  (forall v, In v selected -> ~ In v (map (column o) df)) ->
  filtered_df o selected df = [].
Proof.
  intros Hne Hout. destruct selected as [|s0 rest]; [contradiction|].
  unfold filtered_df. apply filter_nothing. intros r Hr.
  destruct (isin (s0 :: rest) (column o r)) eqn:E; [|reflexivity].
  apply isin_In in E. exfalso. apply (Hout _ E). now apply in_map.
Qed.

Lemma foreign_selection_keeps_none_witness :
  filtered_df State [Some "NoSuchState"] four_readings = [].
Proof.
  apply foreign_selection_keeps_none.
  - discriminate.
  - intros v [<-|[]]. simpl.
    intros [H|[H|[H|[H|[]]]]]; discriminate.
Defined.

(** C3. The alert is raised if and only if the largest pollutant_avg of the
    frame is strictly greater than 200; equivalently, if and only if some
    record reads above 200. *)
Theorem alert_iff_max_above_200 (df : DataFrame) :
  (alert df = true <-> exists m, is_max df m /\ gtb m (of_Z 200) = true) /\
  (alert df = true <-> exists r, In r df /\ gtb (pollutant_avg r) (of_Z 200) = true).
Proof.
  unfold alert, gtb.
  assert (Hup : forall x, In x (map pollutant_avg df) -> ltb (of_Z 200) x = true ->
                          ltb (of_Z 200) (max (map pollutant_avg df)) = true).
  { intros x Hx Hgt. destruct (ltb_notnan _ _ Hgt) as [_ Hn].
    destruct (max_spec (map pollutant_avg df)) as [[_ Hall]|(_ & _ & Hle)].
    - rewrite (Hall x Hx) in Hn. discriminate.
    - apply (ltb_leb_trans _ _ _ Hgt). now apply Hle. }
  assert (Hdown : ltb (of_Z 200) (max (map pollutant_avg df)) = true ->
                  is_max df (max (map pollutant_avg df))).
  { intros Hgt. destruct (ltb_notnan _ _ Hgt) as [_ Hn].
    destruct (max_spec (map pollutant_avg df)) as [[Hnan _]|(_ & Hin & Hle)].
    - rewrite Hnan in Hn. discriminate.
    - repeat split; [assumption|assumption|].
      intros r Hr Hr'. apply Hle; [now apply in_map|assumption]. }
  split; split.
  - intros H. exists (max (map pollutant_avg df)). auto.
  - intros (m & (_ & Hin & _) & Hgt). now apply (Hup m).
  - intros H. destruct (Hdown H) as (_ & Hin & _).
    apply in_map_iff in Hin. destruct Hin as (r & Hr & Hin).
    exists r. split; [assumption|]. now rewrite Hr.
  - intros (r & Hr & Hgt). apply (Hup (pollutant_avg r)); [now apply in_map|assumption].
Qed.


(** *** Aggregates, for any kernel that sorts *)

(** C8. On the empty frame every aggregate returns its neutral result: no
    alert, no category row, no state average and no ranked city; none of them
    fails. *)
Theorem empty_frame_is_neutral (sort : kernel) :
  sorts sort ->
  alert [] = false /\
  category_counts sort [] = [] /\
  state_avg sort [] = [] /\
  cleanest_cities sort [] = [] /\
  forall n, cleanest sort n [] = [].
Proof.
  intros Hs.
  assert (Hrank : city_ranking sort [] = []).
  { unfold city_ranking. rewrite (groupby_mean_nil sort Hs).
    apply (sort_values_nil sort Hs). }
  repeat split.
  - unfold category_counts, value_counts. simpl. apply (sort_values_nil sort Hs).
  - unfold state_avg. rewrite (groupby_mean_nil sort Hs).
    apply (sort_values_nil sort Hs).
  - unfold cleanest_cities, cleanest. now rewrite Hrank.
  - intros n. unfold cleanest, head. rewrite Hrank. apply firstn_nil.
Qed.

Lemma empty_frame_is_neutral_witness :
  alert [] = false /\
  category_counts insertion_sort [] = [] /\
  state_avg insertion_sort [] = [] /\
  cleanest_cities insertion_sort [] = [] /\
  forall n, cleanest insertion_sort n [] = [].
Proof.
  exact (empty_frame_is_neutral insertion_sort insertion_sort_sorts).
Defined.

(** C2, as the script has it.  The category counts add up to the number of
    all records of the frame.  A record whose pollutant_avg is missing is not
    left out: it is labelled Hazardous at load time and counted there. *)
Theorem category_counts_cover_all_records (sort : kernel) (df : DataFrame) :
  sorts sort ->
  total (category_counts sort df) = List.length df /\
  (categorized df ->
   forall r, In r df -> isnan (pollutant_avg r) = true ->
             AQI_Category r = label Hazardous /\
             exists n, In (label Hazardous, n) (category_counts sort df) /\ 1 <= n).
Proof.
  intros Hs. split.
  - unfold category_counts. rewrite (value_counts_total sort _ Hs). apply length_map.
  - intros Hc r Hr Hnan.
    unfold categorized in Hc. rewrite Forall_forall in Hc.
    assert (Hcat : AQI_Category r = label Hazardous).
    { rewrite (Hc r Hr). now apply aqi_category_isnan. }
    split; [assumption|].
    exists (count (map AQI_Category df) (label Hazardous)). split.
    + unfold category_counts, value_counts.
      apply (Permutation_in _ (sort_values_perm sort Hs _ _ _ _)).
      apply (in_map (fun x => (x, count (map AQI_Category df) x))).
      apply unique_In. rewrite <- Hcat. now apply in_map.
    + unfold count.
      assert (Hin : In (AQI_Category r)
                       (filter (String.eqb (label Hazardous)) (map AQI_Category df))).
      { apply filter_In. split; [now apply in_map|].
        rewrite Hcat. apply String.eqb_refl. }
      destruct (filter (String.eqb (label Hazardous)) (map AQI_Category df));
        [destruct Hin|simpl; lia].
Qed.

Lemma category_counts_cover_all_records_witness :
  total (category_counts insertion_sort four_readings) = 4.
Proof.
  exact (proj1 (category_counts_cover_all_records insertion_sort four_readings
                                                 insertion_sort_sorts)).
Defined.

(** C2, as the specification words it, fails on a frame with one record
    whose pollutant_avg is missing: no record is categorizable, yet the
    counts add up to one, the record being counted as Hazardous. *)
Lemma category_counts_include_missing :
  load_data (csv_with [raw_reading "Goa" "Panaji" nan]) midnight "AQI.csv"
  = Some silent_station /\
  category_counts insertion_sort silent_station = [(label Hazardous, 1)] /\
  categorizable silent_station = 0 /\
  total (category_counts insertion_sort silent_station) <> categorizable silent_station.
Proof.
  split; [reflexivity|]. split; [reflexivity|]. split; [reflexivity|].
  vm_compute. discriminate.
Qed.

(** C5. [cleanest_cities] returns at most five (city, mean) rows in ascending
    order of mean: no row has a smaller mean than a row before it, and the
    cities without any reading, whose mean is NaN, come after all the
    others.  With the length [n] of the head left open, the result is the
    first [n] rows of the full ranking, and it is empty for [n = 0]. *)
Theorem cleanest_cities_ascending_top5 (sort : kernel) (df : DataFrame) :
  sorts sort ->
  (List.length (cleanest_cities sort df) <= 5 /\
   ranked_ascending (cleanest_cities sort df) /\
   never_decreasing (cleanest_cities sort df)) /\
  (forall n,
      cleanest sort n df = firstn n (city_ranking sort df) /\
      List.length (cleanest sort n df) = Nat.min n (List.length (city_ranking sort df)) /\
      ranked_ascending (cleanest sort n df)) /\
  cleanest sort 0 df = [].
Proof.
  intros Hs.
  assert (Hr : forall n, ranked_ascending (cleanest sort n df)).
  { intros n. unfold cleanest, head, ranked_ascending. apply ranked_firstn.
    unfold city_ranking. apply (sort_values_ascending sort Hs). }
  repeat split.
  - unfold cleanest_cities, cleanest, head. rewrite length_firstn. lia.
  - apply Hr.
  - apply ranked_ascending_never_decreasing, Hr.
  - unfold cleanest, head. apply length_firstn.
  - apply Hr.
Qed.

Lemma cleanest_cities_ascending_top5_witness :
  List.length (cleanest_cities insertion_sort four_readings) <= 5 /\
  ranked_ascending (cleanest_cities insertion_sort four_readings) /\
  never_decreasing (cleanest_cities insertion_sort four_readings).
Proof.
  exact (proj1 (cleanest_cities_ascending_top5 insertion_sort four_readings
                                               insertion_sort_sorts)).
Defined.

(** C4, as the script has it.  [state_avg] lists every state once, in
    descending order of mean: no row has a larger mean than a row before it,
    and the states without any reading, whose mean is NaN, come after all
    the others.  The script asks for no order among states with equal
    means; they appear in ascending order of state name whenever the
    sorting kernel is stable. *)
Theorem state_avg_descending (sort : kernel) (df : DataFrame) :
  sorts sort ->
  NoDup (map fst (state_avg sort df)) /\
  ranked_descending (state_avg sort df) /\
  never_increasing (state_avg sort df) /\
  (stable sort -> ties_by_name (state_avg sort df)).
Proof.
  intros Hs.
  assert (Hrank : ranked_descending (state_avg sort df)).
  { unfold state_avg, ranked_descending. apply (sort_values_descending sort Hs). }
  split; [|split; [exact Hrank|split]].
  - apply (Permutation_NoDup
             (Permutation_map fst (sort_values_perm sort Hs isnan ltb false _))).
    rewrite (groupby_mean_keys sort). apply (group_keys_NoDup sort Hs).
  - now apply ranked_descending_never_increasing.
  - intros Hst. apply ties_by_name_classes. intros x.
    unfold state_avg, sort_values.
    set (gm := groupby_mean sort state pollutant_avg df).
    set (good := filter (fun r : string * float => negb (isnan (snd r))) gm).
    rewrite filter_app.
    rewrite (filter_nothing _ (filter (fun r : string * float => isnan (snd r)) gm)).
    2:{ intros y Hy. apply filter_In in Hy. apply eqb_isnan_r. apply Hy. }
    rewrite app_nil_r.
    destruct (isnan (snd x)) eqn:Hx.
    { rewrite filter_nothing; [constructor|].
      intros y _. now apply eqb_isnan_l. }
    assert (Hperm : Permutation good (rev (sort _ (fun a b : string * float =>
                                                     ltb (snd a) (snd b)) (rev good)))).
    { rewrite <- Permutation_rev, <- (proj1 (Hs _ _ _)). apply Permutation_rev. }
    assert (Hgood : forall y, In y good -> isnan (snd y) = false).
    { intros y Hy. apply filter_In in Hy. now apply negb_true_iff. }
    rewrite (filter_ext_in
               (fun y : string * float => SFeqb (snd x) (snd y))
               (fun y => negb (ltb (snd x) (snd y)) && negb (ltb (snd y) (snd x)))).
    2:{ intros y Hy. apply eqb_ltb; [assumption|].
        apply Hgood. apply (Permutation_in _ (Permutation_sym Hperm) Hy). }
    change (StronglySorted (fun a b : string * float => (fst a <? fst b)%string = true)
              (ties (fun a b : string * float => ltb (snd a) (snd b)) x
                    (rev (sort _ (fun a b : string * float => ltb (snd a) (snd b))
                               (rev good))))).
    unfold good. rewrite (sort_values_descending_ties sort gm x Hst Hx).
    apply StronglySorted_filter, StronglySorted_filter.
    apply (groupby_mean_increasing sort Hs).
Qed.

Lemma state_avg_descending_witness :
  NoDup (map fst (state_avg insertion_sort four_readings)) /\
  ranked_descending (state_avg insertion_sort four_readings) /\
  never_increasing (state_avg insertion_sort four_readings) /\
  ties_by_name (state_avg insertion_sort four_readings).
Proof.
  destruct (state_avg_descending insertion_sort four_readings insertion_sort_sorts)
    as (H1 & H2 & H3 & H4).
  exact (conj H1 (conj H2 (conj H3 (H4 insertion_sort_stable)))).
Defined.

(** C4, as the specification words it, asks for ascending state names among
    equal means.  The script sorts with the default kind of [sort_values],
    quicksort, which is not stable.  On thirty states of which ten share each
    of three means, numpy's quicksort leaves the rows in descending order of
    mean but not in ascending order of name within a mean: Mizoram comes out
    before Assam.  (Below eighteen rows this kernel is an insertion sort and
    keeps the rows of a mean by name.  Where numpy dispatches a vectorised
    kernel instead, the order within a mean is that kernel's; it is not a
    stable sort either.) *)
Lemma state_avg_ties_follow_kernel :
  List.length (state_avg numpy_quicksort thirty_states) = 30%nat /\
  never_increasing (state_avg numpy_quicksort thirty_states) /\
  ~ ties_by_name (state_avg numpy_quicksort thirty_states).
Proof.
  split; [vm_compute; reflexivity|]. split.
  - apply never_increasingb_sound. vm_compute. reflexivity.
  - intros H. apply ties_by_nameb_complete in H. vm_compute in H. discriminate.
Qed.

(** *** The worked example of the specification *)

Example four_readings_counts :
  Permutation (category_counts insertion_sort four_readings)
              [(label Good, 1); (label Moderate, 1);
               (label UnhealthySensitive, 1); (label Hazardous, 1)].
Proof. vm_compute. apply Permutation_refl. Qed.

Example four_readings_alert : alert four_readings = true.
Proof. reflexivity. Qed.

Example four_readings_state_avg :
  state_avg insertion_sort four_readings
  = [("Delhi", of_Z 210); ("Punjab", of_Z 120); ("Kerala", of_Z 35)].
Proof. vm_compute. reflexivity. Qed.

Example four_readings_cleanest :
  cleanest_cities insertion_sort four_readings
  = [("Kochi", of_Z 10); ("Kollam", of_Z 60); ("Amritsar", of_Z 120); ("Delhi", of_Z 210)].
Proof. vm_compute. reflexivity. Qed.

Example level_states_stable :
  state_avg insertion_sort level_states = [("Assam", of_Z 10); ("Bihar", of_Z 10)].
Proof. vm_compute. reflexivity. Qed.

(** On two rows numpy's quicksort is an insertion sort and agrees. *)
Example level_states_quicksort :
  state_avg numpy_quicksort level_states = [("Assam", of_Z 10); ("Bihar", of_Z 10)].
Proof. vm_compute. reflexivity. Qed.

(** The group mean is the compensated one: 0.1, 0.2 and 0.3 average to
    0.6 / 3, one unit in the last place below what the plain sum gives. *)
Example mean_is_compensated :
  let tenths := fun n => div (of_Z n) (of_Z 10) in
  mean [tenths 1%Z; tenths 2%Z; tenths 3%Z] = div (tenths 6%Z) (of_Z 3) /\
  div (fold_left add [tenths 1%Z; tenths 2%Z; tenths 3%Z] (of_Z 0)) (of_Z 3)
  <> div (tenths 6%Z) (of_Z 3).
Proof. split; [vm_compute; reflexivity|vm_compute; discriminate]. Qed.

Example filter_by_state :
  map city (filtered_df State [Some "Kerala"] four_readings) = [Some "Kochi"; Some "Kollam"].
Proof. reflexivity. Qed.

End Properties.

(** ** Further facts: classifier and loader *)

Module LoaderFacts.
Import Float64 Float64Facts Numpy NumpyFacts Pandas PandasFacts ListFacts.
Import Main Spec MainFacts.

(** A reading above a cutoff is above every lower cutoff. *)
Lemma above_chain (c c' : Z) (v : float) :
  ltb (of_Z c) (of_Z c') = true -> ltb (of_Z c') v = true -> ltb (of_Z c) v = true.
Proof. apply ltb_trans. Qed.

(** The label of a present reading is decided by the cutoffs it exceeds. *)
Lemma aqi_category_present (v : float) :
  isnan v = false ->
  aqi_category v =
  if ltb (of_Z 200) v then label Hazardous
  else if ltb (of_Z 150) v then label Unhealthy
  else if ltb (of_Z 100) v then label UnhealthySensitive
  else if ltb (of_Z 50) v then label Moderate
  else label Good.
Proof.
  intros Hv. unfold aqi_category.
  rewrite (leb_ltb v (of_Z 50) Hv eq_refl), (leb_ltb v (of_Z 100) Hv eq_refl),
    (leb_ltb v (of_Z 150) Hv eq_refl), (leb_ltb v (of_Z 200) Hv eq_refl).
  destruct (ltb (of_Z 50) v) eqn:H50, (ltb (of_Z 100) v) eqn:H100,
           (ltb (of_Z 150) v) eqn:H150, (ltb (of_Z 200) v) eqn:H200;
    simpl; try reflexivity; exfalso.
  all: try (rewrite (above_chain 50 100 v eq_refl H100) in H50; discriminate).
  all: try (rewrite (above_chain 50 150 v eq_refl H150) in H50; discriminate).
  all: try (rewrite (above_chain 50 200 v eq_refl H200) in H50; discriminate).
  all: try (rewrite (above_chain 100 150 v eq_refl H150) in H100; discriminate).
  all: try (rewrite (above_chain 100 200 v eq_refl H200) in H100; discriminate).
  all: try (rewrite (above_chain 150 200 v eq_refl H200) in H150; discriminate).
Qed.

Lemma traverse_None {A B : Type} (f : A -> option B) (l : list A) :
  traverse f l = None <-> exists a, In a l /\ f a = None.
Proof.
  induction l as [|a t IH]; simpl.
  - split; [discriminate|]. intros (a & [] & _).
  - destruct (f a) as [b|] eqn:Ea.
    + destruct (traverse f t) as [bs|].
      * split; [discriminate|]. intros (x & [<-|Hx] & Hfx); [congruence|].
        assert (H : Some bs = None) by (apply IH; eauto). discriminate.
      * split; [|reflexivity]. intros _.
        destruct (proj1 IH eq_refl) as (x & Hx & Hfx). eauto.
    + split; [|reflexivity]. intros _. exists a. auto.
Qed.

Lemma load_row_None (to_datetime : string -> option Z) (r : RawRow) :
  load_row to_datetime r = None <->
  exists s, raw_last_update r = Some s /\ to_datetime s = None.
Proof.
  unfold load_row, parse_cell. destruct (raw_last_update r) as [s|].
  - destruct (to_datetime s) eqn:E.
    + split; [discriminate|]. intros (s' & Hs & Hn). congruence.
    + split; [|reflexivity]. intros _. eauto.
  - split; [discriminate|]. intros (s' & Hs & _). discriminate.
Qed.

Lemma load_row_fields (to_datetime : string -> option Z) (r : RawRow) (r' : Row) :
  load_row to_datetime r = Some r' ->
  state r' = raw_state r /\ city r' = raw_city r /\ station r' = raw_station r /\
  latitude r' = raw_latitude r /\ longitude r' = raw_longitude r /\
  pollutant_id r' = raw_pollutant_id r /\
  pollutant_min r' = raw_pollutant_min r /\ pollutant_max r' = raw_pollutant_max r /\
  pollutant_avg r' = raw_pollutant_avg r /\
  AQI_Category r' = aqi_category (raw_pollutant_avg r).
Proof.
  unfold load_row. destruct (parse_cell to_datetime (raw_last_update r)); [|discriminate].
  intros H. injection H as <-. simpl. repeat split; reflexivity.
Qed.

Lemma Forall2_map_eq {A B C : Type} (R : A -> B -> Prop) (f : A -> C) (g : B -> C)
      (l : list A) (l' : list B) :
  (forall a b, R a b -> f a = g b) -> Forall2 R l l' -> map f l = map g l'.
Proof.
  intros H. induction 1 as [|a b l l' Hab _ IH]; simpl; [reflexivity|].
  now rewrite (H a b Hab), IH.
Qed.

Lemma load_data_rows (read_csv : string -> option (list RawRow))
      (to_datetime : string -> option Z) (source : string)
      (raw : list RawRow) (df : DataFrame) :
  read_csv source = Some raw ->
  load_data read_csv to_datetime source = Some df ->
  Forall2 (fun r r' => load_row to_datetime r = Some r') raw df.
Proof.
  unfold load_data. intros -> H. now apply traverse_Forall2.
Qed.

(** What a run of the session returns from a given cache. *)
Lemma session_warm (read_csv : string -> option (list RawRow))
      (to_datetime : string -> option Z) (df : DataFrame) (sources : list string) :
  session read_csv to_datetime (Some df) sources
  = repeat (Some df) (List.length sources).
Proof.
  induction sources as [|s t IH]; simpl; [reflexivity|]. now rewrite IH.
Qed.

Lemma session_cold_fail (read_csv : string -> option (list RawRow))
      (to_datetime : string -> option Z) (source : string) (later : list string) :
  load_data read_csv to_datetime source = None ->
  session read_csv to_datetime None (source :: later)
  = None :: session read_csv to_datetime None later.
Proof.
  intros H. cbn [session]. unfold load_data_cached. now rewrite H.
Qed.

Lemma session_cold_load (read_csv : string -> option (list RawRow))
      (to_datetime : string -> option Z) (source : string) (later : list string)
      (df : DataFrame) :
  load_data read_csv to_datetime source = Some df ->
  session read_csv to_datetime None (source :: later)
  = Some df :: session read_csv to_datetime (Some df) later.
Proof.
  intros H. cbn [session]. unfold load_data_cached. now rewrite H.
Qed.

End LoaderFacts.

(** ** Further properties of the script *)

Module Further.
Import Float64 Float64Facts Numpy NumpyFacts Pandas PandasFacts ListFacts.
Import Main Spec MainFacts LoaderFacts Samples.

(** Decide a statement about labels once every test has a value. *)
Ltac settle :=
  repeat split; intros; simpl in *;
  repeat match goal with
    | H : _ /\ _ |- _ => destruct H
    | H : _ \/ _ |- _ => destruct H
    end;
  try reflexivity; try discriminate; auto.

(** X1. The classifier is monotone: of two present readings, the larger one
    never gets the less severe label. *)
Theorem aqi_category_monotone (v w : float) (t t' : tier) :
  leb v w = true ->
  aqi_category v = label t -> aqi_category w = label t' ->
  severity t <= severity t'.
Proof.
  intros Hvw Hv Hw. destruct (leb_notnan _ _ Hvw) as [Nv Nw].
  assert (Up : forall c, ltb (of_Z c) v = true -> ltb (of_Z c) w = true).
  { intros c Hc. exact (ltb_leb_trans _ _ _ Hc Hvw). }
  rewrite (aqi_category_present v Nv) in Hv.
  rewrite (aqi_category_present w Nw) in Hw.
  destruct (ltb (of_Z 200) v) eqn:V200; [rewrite (Up 200%Z V200) in Hw|].
  { apply label_inj in Hv, Hw. subst. simpl. lia. }
  destruct (ltb (of_Z 150) v) eqn:V150; [rewrite (Up 150%Z V150) in Hw|].
  { apply label_inj in Hv. subst.
    destruct (ltb (of_Z 200) w); apply label_inj in Hw; subst; simpl; lia. }
  destruct (ltb (of_Z 100) v) eqn:V100; [rewrite (Up 100%Z V100) in Hw|].
  { apply label_inj in Hv. subst.
    destruct (ltb (of_Z 200) w), (ltb (of_Z 150) w);
      apply label_inj in Hw; subst; simpl; lia. }
  destruct (ltb (of_Z 50) v) eqn:V50; [rewrite (Up 50%Z V50) in Hw|].
  { apply label_inj in Hv. subst.
    destruct (ltb (of_Z 200) w), (ltb (of_Z 150) w), (ltb (of_Z 100) w);
      apply label_inj in Hw; subst; simpl; lia. }
  apply label_inj in Hv. subst. simpl. lia.
Qed.

Lemma aqi_category_monotone_witness :
  severity Moderate <= severity Unhealthy.
Proof.
  apply (aqi_category_monotone (of_Z 60) (of_Z 180)); reflexivity.
Defined.

(** X2. Each label tells the range of the reading exactly.  Good means at
    most 50, Moderate above 50 and at most 100, and so on; Hazardous means
    above 200 or missing, and nothing else. *)
Theorem aqi_category_ranges (v : float) :
  (aqi_category v = label Good <-> leb v (of_Z 50) = true) /\
  (aqi_category v = label Moderate <->
   ltb (of_Z 50) v = true /\ leb v (of_Z 100) = true) /\
  (aqi_category v = label UnhealthySensitive <->
   ltb (of_Z 100) v = true /\ leb v (of_Z 150) = true) /\
  (aqi_category v = label Unhealthy <->
   ltb (of_Z 150) v = true /\ leb v (of_Z 200) = true) /\
  (aqi_category v = label Hazardous <-> isnan v = true \/ gtb v (of_Z 200) = true).
Proof.
  destruct (isnan v) eqn:Nv.
  - destruct v; try discriminate. cbv [gtb]. settle.
  - rewrite (aqi_category_present v Nv).
    change (gtb v (of_Z 200)) with (ltb (of_Z 200) v).
    rewrite (leb_ltb v (of_Z 50) Nv eq_refl), (leb_ltb v (of_Z 100) Nv eq_refl),
      (leb_ltb v (of_Z 150) Nv eq_refl), (leb_ltb v (of_Z 200) Nv eq_refl).
    destruct (ltb (of_Z 200) v) eqn:H200.
    { rewrite (above_chain 150 200 v eq_refl H200), (above_chain 100 200 v eq_refl H200),
        (above_chain 50 200 v eq_refl H200).
      settle. }
    destruct (ltb (of_Z 150) v) eqn:H150.
    { rewrite (above_chain 100 150 v eq_refl H150), (above_chain 50 150 v eq_refl H150).
      settle. }
    destruct (ltb (of_Z 100) v) eqn:H100.
    { rewrite (above_chain 50 100 v eq_refl H100). settle. }
    destruct (ltb (of_Z 50) v) eqn:H50; settle.
Qed.


(** X3. One bad timestamp stops the whole load.  Loading fails when the file
    cannot be read, and it fails when some row, wherever it is in the file,
    has a [last_update] cell that [to_datetime] rejects: no frame is
    returned, not even the rows before the bad one. *)
Theorem load_data_fails_on_bad_timestamp
        (read_csv : string -> option (list RawRow)) (to_datetime : string -> option Z)
        (source : string) :
  (read_csv source = None -> load_data read_csv to_datetime source = None) /\
  (forall raw r s,
      read_csv source = Some raw -> In r raw ->
      raw_last_update r = Some s -> to_datetime s = None ->
      load_data read_csv to_datetime source = None).
Proof.
  unfold load_data. split.
  - now intros ->.
  - intros raw r s -> Hr Hs Hn. apply traverse_None. exists r.
    split; [assumption|]. apply load_row_None. eauto.
Qed.

Lemma load_data_fails_on_bad_timestamp_witness :
  load_data (csv_with [raw_reading "Goa" "Panaji" (of_Z 10);
                       raw_stamped "yesterday" "Goa" "Margao" (of_Z 20)])
            strict_datetime "AQI.csv"
  = None.
Proof.
  apply (proj2 (load_data_fails_on_bad_timestamp
                  (csv_with [raw_reading "Goa" "Panaji" (of_Z 10);
                             raw_stamped "yesterday" "Goa" "Margao" (of_Z 20)])
                  strict_datetime "AQI.csv")
               [raw_reading "Goa" "Panaji" (of_Z 10);
                raw_stamped "yesterday" "Goa" "Margao" (of_Z 20)]
               (raw_stamped "yesterday" "Goa" "Margao" (of_Z 20)) "yesterday").
  - reflexivity.
  - right. now left.
  - reflexivity.
  - reflexivity.
Defined.

(** X4. A successful load keeps the rows of the file: as many, in the same
    order, with the columns of the file unchanged; the added label is the
    class of the row's own pollutant_avg. *)
Theorem load_data_keeps_rows
        (read_csv : string -> option (list RawRow)) (to_datetime : string -> option Z)
        (source : string) (raw : list RawRow) (df : DataFrame) :
  read_csv source = Some raw ->
  load_data read_csv to_datetime source = Some df ->
  List.length df = List.length raw /\
  map state df = map raw_state raw /\
  map city df = map raw_city raw /\
  map station df = map raw_station raw /\
  map pollutant_id df = map raw_pollutant_id raw /\
  map (fun r => (latitude r, longitude r)) df
  = map (fun r => (raw_latitude r, raw_longitude r)) raw /\
  map (fun r => (pollutant_min r, pollutant_max r, pollutant_avg r)) df
  = map (fun r => (raw_pollutant_min r, raw_pollutant_max r, raw_pollutant_avg r)) raw /\
  map AQI_Category df = map (fun r => aqi_category (raw_pollutant_avg r)) raw.
Proof.
  intros Hraw Hload. assert (H := load_data_rows _ _ _ _ _ Hraw Hload).
  split; [symmetry; exact (Forall2_length H)|].
  repeat split; symmetry;
    (eapply Forall2_map_eq; [|exact H]); intros a b Hab; simpl in Hab;
    destruct (load_row_fields _ _ _ Hab)
      as (Hs & Hc & Hst & Hla & Hlo & Hid & Hmi & Hma & Hav & Hcat);
    congruence.
Qed.

Lemma load_data_keeps_rows_witness :
  map AQI_Category silent_station = [label Hazardous].
Proof.
  exact (proj2 (proj2 (proj2 (proj2 (proj2 (proj2 (proj2
    (load_data_keeps_rows (csv_with [raw_reading "Goa" "Panaji" nan]) midnight "AQI.csv"
                          [raw_reading "Goa" "Panaji" nan] silent_station
                          eq_refl eq_refl)))))))).
Defined.

(** X5. Over a session that starts with an empty cache, every run fails
    until the first run whose file loads; that run and every later one return
    the frame of that file, whatever the file has become since. *)
Theorem session_serves_first_load
        (read_csv : string -> option (list RawRow)) (to_datetime : string -> option Z)
        (failing : list string) (source : string) (later : list string) (df : DataFrame) :
  Forall (fun s => load_data read_csv to_datetime s = None) failing ->
  load_data read_csv to_datetime source = Some df ->
  session read_csv to_datetime None (failing ++ source :: later)
  = repeat None (List.length failing) ++ repeat (Some df) (S (List.length later)).
Proof.
  intros Hfail Hload. induction Hfail as [|s t Hs _ IH].
  - cbn [app List.length repeat]. rewrite (session_cold_load _ _ _ _ df Hload).
    now rewrite session_warm.
  - cbn [app List.length repeat]. rewrite (session_cold_fail _ _ _ _ Hs).
    now rewrite IH.
Qed.

Lemma session_serves_first_load_witness :
  session (fun s => if String.eqb s "" then None else Some [raw_reading "Goa" s nan])
          midnight None [""; "Panaji"; "Margao"; ""]
  = [None; Some silent_station; Some silent_station; Some silent_station].
Proof.
  apply (session_serves_first_load _ midnight [""] "Panaji" ["Margao"; ""] silent_station).
  - repeat constructor.
  - reflexivity.
Defined.

End Further.

(** ** Further facts: alert and category counts *)

Module CountFacts.
Import Float64 Float64Facts Numpy NumpyFacts Pandas PandasFacts ListFacts.
Import Main Spec MainFacts LoaderFacts.

Lemma alert_true_iff (df : DataFrame) :
  alert df = true <-> exists r, In r df /\ gtb (pollutant_avg r) (of_Z 200) = true.
Proof.
  unfold alert, gtb. split.
  - intros Hgt. destruct (ltb_notnan _ _ Hgt) as [_ Hn].
    destruct (max_spec (map pollutant_avg df)) as [[Hnan _]|(_ & Hin & _)].
    + rewrite Hnan in Hn. discriminate.
    + apply in_map_iff in Hin. destruct Hin as (r & Hr & Hin).
      exists r. split; [assumption|]. now rewrite Hr.
  - intros (r & Hr & Hgt). destruct (ltb_notnan _ _ Hgt) as [_ Hn].
    destruct (max_spec (map pollutant_avg df)) as [[_ Hall]|(_ & _ & Hle)].
    + rewrite (Hall _ (in_map pollutant_avg df r Hr)) in Hn. discriminate.
    + apply (ltb_leb_trans _ _ _ Hgt). apply Hle; [now apply in_map|assumption].
Qed.

(** The label is Hazardous exactly for a missing reading and for one above
    200. *)
Lemma hazardous_eqb (v : float) :
  String.eqb (label Hazardous) (aqi_category v) = isnan v || gtb v (of_Z 200).
Proof.
  destruct (isnan v) eqn:Nv.
  - now rewrite (aqi_category_isnan v Nv).
  - rewrite (aqi_category_present v Nv).
    change (gtb v (of_Z 200)) with (ltb (of_Z 200) v). cbn [orb].
    destruct (ltb (of_Z 200) v); [reflexivity|].
    destruct (ltb (of_Z 150) v); [reflexivity|].
    destruct (ltb (of_Z 100) v); [reflexivity|].
    destruct (ltb (of_Z 50) v); reflexivity.
Qed.

Lemma count_pos (l : list string) (x : string) : In x l -> 1 <= count l x.
Proof.
  intros H. unfold count.
  assert (Hin : In x (filter (String.eqb x) l)).
  { apply filter_In. split; [assumption|apply String.eqb_refl]. }
  destruct (filter (String.eqb x) l); [destruct Hin|simpl; lia].
Qed.

Lemma unique_repeat (x : string) (n : nat) : unique (repeat x (S n)) = [x].
Proof.
  induction n as [|n IH]; [reflexivity|].
  change (unique (repeat x (S (S n))))
    with (x :: filter (fun y => negb (String.eqb x y)) (unique (repeat x (S n)))).
  rewrite IH. simpl. now rewrite String.eqb_refl.
Qed.

Lemma count_repeat (x : string) (n : nat) : count (repeat x n) x = n.
Proof.
  unfold count. induction n as [|n IH]; [reflexivity|].
  simpl. rewrite String.eqb_refl. simpl. now rewrite IH.
Qed.

Section Counts.
Variable sort : kernel.
Hypothesis sort_ok : sorts sort.

Lemma value_counts_In (l : list string) (c : string) (n : nat) :
  In (c, n) (value_counts sort l) <-> In c l /\ n = count l c.
Proof.
  unfold value_counts. split.
  - intros H.
    apply (Permutation_in _ (Permutation_sym (sort_values_perm sort sort_ok _ _ _ _))) in H.
    apply in_map_iff in H. destruct H as (x & E & Hx). injection E as <- <-.
    split; [exact (proj1 (unique_In _ _) Hx)|reflexivity].
  - intros [Hc ->].
    apply (Permutation_in _ (sort_values_perm sort sort_ok _ _ _ _)).
    apply (in_map (fun x => (x, count l x))). now apply unique_In.
Qed.

Lemma value_counts_labels (l : list string) :
  Permutation (unique l) (map fst (value_counts sort l)).
Proof.
  unfold value_counts.
  rewrite <- (Permutation_map fst (sort_values_perm sort sort_ok _ _ _ _)).
  rewrite map_map. simpl. now rewrite map_id.
Qed.

Lemma by_count_strict_weak (s : Series string nat) :
  strict_weak_on (fun a b : string * nat => Nat.ltb (snd a) (snd b)) s.
Proof.
  repeat split.
  - intros a _. apply Nat.ltb_irrefl.
  - intros a b c _ _ _. rewrite !Nat.ltb_lt. lia.
  - intros a b c _ _ _. rewrite !Nat.ltb_ge. lia.
Qed.

(** [value_counts] lists the most frequent value first. *)
Lemma value_counts_descending (l : list string) :
  StronglySorted (fun a b : string * nat => snd b <= snd a) (value_counts sort l).
Proof.
  unfold value_counts, sort_values.
  set (s := map (fun x => (x, count l x)) (unique l)).
  rewrite (filter_nothing (fun r : string * nat => false) s) by reflexivity.
  rewrite app_nil_r.
  replace (filter (fun r : string * nat => negb false) s) with s.
  2:{ symmetry. apply forallb_filter_id. now apply forallb_forall. }
  destruct (sort_ok _ (fun a b : string * nat => Nat.ltb (snd a) (snd b)) (rev s)) as [_ Ha].
  specialize (Ha (by_count_strict_weak _)). unfold ascending in Ha.
  apply StronglySorted_rev in Ha.
  eapply StronglySorted_weaken with (P := fun _ => True); [|now apply Forall_forall|exact Ha].
  intros a b _ _ H. simpl in H. now apply Nat.ltb_ge in H.
Qed.

End Counts.

End CountFacts.

(** ** Further facts: groups and rankings *)

Module GroupFacts.
Import Float64 Float64Facts StringFacts Numpy NumpyFacts Pandas PandasFacts ListFacts.
Import Main Spec MainFacts.

Lemma present_In (l : list (option string)) (x : string) :
  In x (present l) <-> In (Some x) l.
Proof.
  induction l as [|[y|] t IH]; simpl.
  - reflexivity.
  - rewrite IH. split; (intros [H|H]; [left; congruence|now right]).
  - rewrite IH. split; [now right|]. intros [H|H]; [discriminate|assumption].
Qed.

Lemma StronglySorted_app_inv {A : Type} (R : A -> A -> Prop) (l1 l2 : list A) :
  StronglySorted R (l1 ++ l2) -> forall a b, In a l1 -> In b l2 -> R a b.
Proof.
  induction l1 as [|x l1 IH]; simpl; intros H a b Ha Hb; [destruct Ha|].
  inversion H as [|? ? Hs Hall]; subst. destruct Ha as [<-|Ha].
  - rewrite Forall_forall in Hall. apply Hall. apply in_or_app. now right.
  - now apply IH.
Qed.

(** Two strictly increasing lists of strings with the same elements are the
    same list. *)
Lemma increasing_ext (l1 l2 : list string) :
  StronglySorted (fun a b => String.ltb a b = true) l1 ->
  StronglySorted (fun a b => String.ltb a b = true) l2 ->
  (forall x, In x l1 <-> In x l2) -> l1 = l2.
Proof.
  intros H1. revert l2. induction H1 as [|a1 t1 Ht1 IH Ha1]; intros l2 H2 E.
  - destruct l2 as [|a2 t2]; [reflexivity|].
    destruct (proj2 (E a2) (or_introl eq_refl)).
  - destruct l2 as [|a2 t2]; [destruct (proj1 (E a1) (or_introl eq_refl))|].
    inversion H2 as [|? ? Ht2 Ha2]; subst.
    rewrite Forall_forall in Ha1, Ha2.
    assert (Heq : a1 = a2).
    { destruct (proj1 (E a1) (or_introl eq_refl)) as [->|Hin1]; [reflexivity|].
      destruct (proj2 (E a2) (or_introl eq_refl)) as [->|Hin2]; [reflexivity|].
      assert (Hc := string_ltb_trans _ _ _ (Ha1 _ Hin2) (Ha2 _ Hin1)).
      now rewrite string_ltb_irrefl in Hc. }
    subst a2. f_equal. apply IH; [assumption|].
    intros x. split; intros Hx.
    + destruct (proj1 (E x) (or_intror Hx)) as [<-|H]; [|assumption].
      assert (Hc := Ha1 _ Hx). now rewrite string_ltb_irrefl in Hc.
    + destruct (proj2 (E x) (or_intror Hx)) as [<-|H]; [|assumption].
      assert (Hc := Ha2 _ Hx). now rewrite string_ltb_irrefl in Hc.
Qed.

Lemma mean_dropna (xs ys : list float) : dropna xs = dropna ys -> mean xs = mean ys.
Proof. unfold mean. now intros ->. Qed.

Lemma cell_eqb_Some_None (k : string) : cell_eqb None (Some k) = false.
Proof. reflexivity. Qed.

Lemma group_keys_In (sort : kernel) (keys : list (option string)) (k : string) :
  sorts sort -> In k (group_keys sort keys) <-> In (Some k) keys.
Proof.
  intros Hs. unfold group_keys.
  transitivity (In k (unique (present keys))).
  - split.
    + apply Permutation_in. apply Permutation_sym. apply Hs.
    + apply Permutation_in. apply Hs.
  - rewrite unique_In. apply present_In.
Qed.

Section Groups.
Variable sort : kernel.
Hypothesis sort_ok : sorts sort.

(** The group keys depend on the set of present keys only: not on their
    order or multiplicity, and not on the kernel. *)
Lemma group_keys_ext (sort' : kernel) (keys keys' : list (option string)) :
  sorts sort' ->
  (forall k, In (Some k) keys <-> In (Some k) keys') ->
  group_keys sort keys = group_keys sort' keys'.
Proof.
  intros Hs' E. apply increasing_ext.
  - now apply group_keys_increasing.
  - now apply group_keys_increasing.
  - intros k. rewrite (group_keys_In sort keys k sort_ok).
    rewrite (group_keys_In sort' keys' k Hs'). apply E.
Qed.

Lemma groupby_mean_In {R : Type} (key : R -> option string) (val : R -> float)
      (df : list R) (k : string) (m : float) :
  In (k, m) (groupby_mean sort key val df) <->
  In (Some k) (map key df) /\
  m = mean (map val (filter (fun r => cell_eqb (key r) (Some k)) df)).
Proof.
  unfold groupby_mean. rewrite in_map_iff. split.
  - intros (k' & E & Hk). injection E as -> <-.
    split; [|reflexivity]. now apply (group_keys_In sort _ _ sort_ok).
  - intros [Hk ->]. exists k. split; [reflexivity|].
    now apply (group_keys_In sort _ _ sort_ok).
Qed.

(** The group means depend on the set of present keys and, for each key, on
    the present values of its rows in order; on nothing else. *)
Lemma groupby_mean_ext {R : Type} (sort' : kernel) (key : R -> option string)
      (val : R -> float) (df df' : list R) :
  sorts sort' ->
  (forall k, In (Some k) (map key df) <-> In (Some k) (map key df')) ->
  (forall k, dropna (map val (filter (fun r => cell_eqb (key r) (Some k)) df))
             = dropna (map val (filter (fun r => cell_eqb (key r) (Some k)) df'))) ->
  groupby_mean sort key val df = groupby_mean sort' key val df'.
Proof.
  intros Hs' Hk Hv. unfold groupby_mean.
  rewrite (group_keys_ext sort' (map key df) (map key df') Hs' Hk).
  apply map_ext. intros k. f_equal. apply mean_dropna, Hv.
Qed.

Lemma groupby_mean_length {R : Type} (key : R -> option string) (val : R -> float)
      (df : list R) :
  List.length (groupby_mean sort key val df) = nunique (map key df).
Proof.
  unfold groupby_mean, group_keys, nunique. rewrite length_map.
  symmetry. apply Permutation_length. apply sort_ok.
Qed.

(** In a ranking, a row with a mean is never below a row placed before it,
    and every row placed before it has a mean. *)
Lemma ranking_prefix_below {L : Type} (s p q : Series L float) :
  s = p ++ q ->
  (exists rated unrated,
      s = rated ++ unrated /\
      Forall (fun r => isnan (snd r) = false) rated /\
      Forall (fun r => isnan (snd r) = true) unrated /\
      StronglySorted (fun a b : L * float => leb (snd a) (snd b) = true) rated) ->
  forall a b, In a p -> In b q -> isnan (snd b) = false ->
              leb (snd a) (snd b) = true.
Proof.
  intros Hs (rated & unrated & Hsplit & Hr & Hu & Hsorted) a b Ha Hb.
  assert (S : StronglySorted
                (fun a b : L * float => isnan (snd b) = false -> leb (snd a) (snd b) = true)
                s).
  { rewrite Hsplit. rewrite Forall_forall in Hu. apply StronglySorted_app.
    - eapply StronglySorted_weaken with (P := fun _ => True);
        [|now apply Forall_forall|exact Hsorted].
      intros x y _ _ H _. exact H.
    - apply StronglySorted_pairwise. intros x y _ Hy Hn.
      rewrite (Hu y Hy) in Hn. discriminate.
    - intros x y _ Hy Hn. rewrite (Hu y Hy) in Hn. discriminate. }
  rewrite Hs in S. exact (StronglySorted_app_inv _ _ _ S a b Ha Hb).
Qed.

(** A frame all of whose rows carry the key [k] has the single group [k]. *)
Lemma groupby_mean_single {R : Type} (key : R -> option string) (val : R -> float)
      (df : list R) (k : string) :
  df <> [] -> (forall r, In r df -> key r = Some k) ->
  groupby_mean sort key val df = [(k, mean (map val df))].
Proof.
  intros Hne Hall. unfold groupby_mean.
  assert (Hk : group_keys sort (map key df) = [k]).
  { apply increasing_ext.
    - now apply group_keys_increasing.
    - repeat constructor.
    - intros x. rewrite (group_keys_In sort _ _ sort_ok), in_map_iff. split.
      + intros (r & Hr & Hin). rewrite (Hall r Hin) in Hr. left. congruence.
      + intros [<-|[]]. destruct df as [|r t]; [contradiction|].
        exists r. split; [apply Hall|]; now left. }
  rewrite Hk. simpl.
  replace (filter (fun r => cell_eqb (key r) (Some k)) df) with df; [reflexivity|].
  symmetry. apply forallb_filter_id. apply forallb_forall. intros r Hr.
  rewrite (Hall r Hr). simpl. apply String.eqb_refl.
Qed.

(** Sorting a Series of one row returns it. *)
Lemma sort_values_single {L V : Type} (isna : V -> bool) (lt : V -> V -> bool)
      (asc : bool) (row : L * V) :
  sort_values sort isna lt asc [row] = [row].
Proof.
  apply Permutation_length_1_inv. now apply sort_values_perm.
Qed.

(** A row without a key, or one without a value whose key other rows carry,
    leaves the group means as they are. *)
Lemma groupby_mean_skips {R : Type} (key : R -> option string) (val : R -> float)
      (before after : list R) (r : R) :
  key r = None \/ (isnan (val r) = true /\ In (key r) (map key (before ++ after))) ->
  groupby_mean sort key val (before ++ r :: after)
  = groupby_mean sort key val (before ++ after).
Proof.
  intros Hr. apply groupby_mean_ext; [assumption| |].
  - intros k. rewrite !map_app, !in_app_iff. simpl.
    split; [|tauto]. intros [H|[H|H]]; auto.
    destruct Hr as [Hn|[_ Hin]]; [congruence|].
    rewrite H, map_app, in_app_iff in Hin. exact Hin.
  - intros k. rewrite !filter_app, !map_app. unfold dropna. rewrite !filter_app.
    f_equal. cbn [filter]. destruct (cell_eqb (key r) (Some k)) eqn:E; [|reflexivity].
    cbn [map filter app]. destruct Hr as [Hn|[Hn _]].
    + rewrite Hn in E. discriminate.
    + unfold notna. now rewrite Hn.
Qed.

End Groups.

End GroupFacts.

(** *** Alert and category counts *)

Module FurtherCounts.
Import Float64 Float64Facts Numpy NumpyFacts Pandas PandasFacts ListFacts.
Import Main Spec MainFacts LoaderFacts CountFacts GroupFacts Samples.

(** X6. The alert goes with the Hazardous label.  On a frame whose labels
    come from the classifier, an alert means some record is labelled
    Hazardous; when no reading is missing, a record labelled Hazardous means
    an alert. *)
Theorem alert_and_hazardous_label (df : DataFrame) :
  categorized df ->
  (alert df = true -> In (label Hazardous) (map AQI_Category df)) /\
  (Forall (fun r => isnan (pollutant_avg r) = false) df ->
   In (label Hazardous) (map AQI_Category df) -> alert df = true).
Proof.
  unfold categorized. rewrite Forall_forall. intros Hc. split.
  - intros H. apply alert_true_iff in H. destruct H as (r & Hr & Hgt).
    apply in_map_iff. exists r. split; [|assumption].
    rewrite (Hc r Hr). symmetry. apply String.eqb_eq.
    rewrite hazardous_eqb, Hgt. apply orb_true_r.
  - rewrite Forall_forall. intros Hp Hin.
    apply in_map_iff in Hin. destruct Hin as (r & Hl & Hr).
    apply alert_true_iff. exists r. split; [assumption|].
    rewrite (Hc r Hr) in Hl. symmetry in Hl. apply String.eqb_eq in Hl.
    rewrite hazardous_eqb, (Hp r Hr) in Hl. exact Hl.
Qed.

Lemma alert_and_hazardous_label_witness :
  In (label Hazardous) (map AQI_Category four_readings).
Proof.
  apply (proj1 (alert_and_hazardous_label four_readings
                  ltac:(repeat constructor))).
  reflexivity.
Defined.

(** X7. The alert of two frames put together is the alert of either, and a
    filtered view with a reading above 200 comes from a frame with the alert
    on. *)
Theorem alert_of_parts (df df' : DataFrame) :
  alert (df ++ df') = alert df || alert df' /\
  (forall o selected, alert (filtered_df o selected df) = true -> alert df = true).
Proof.
  split.
  - apply eq_true_iff_eq. rewrite orb_true_iff, !alert_true_iff. split.
    + intros (r & Hr & Hgt). apply in_app_or in Hr. destruct Hr; eauto.
    + intros [(r & Hr & Hgt)|(r & Hr & Hgt)]; exists r; split; auto;
        apply in_or_app; auto.
  - intros o selected. rewrite !alert_true_iff. intros (r & Hr & Hgt).
    exists r. split; [|assumption].
    destruct selected; [assumption|]. now apply filter_In in Hr.
Qed.

(** X8. The category table has one row for every label that occurs in the
    frame, with the number of records carrying it; a label that does not
    occur has no row, so no row shows a count of zero. *)
Theorem category_counts_rows (sort : kernel) (df : DataFrame) :
  sorts sort ->
  NoDup (map fst (category_counts sort df)) /\
  (forall c n, In (c, n) (category_counts sort df) <->
               In c (map AQI_Category df) /\ n = count (map AQI_Category df) c) /\
  Forall (fun row => 1 <= snd row) (category_counts sort df).
Proof.
  intros Hs. unfold category_counts. split; [|split].
  - apply (Permutation_NoDup (value_counts_labels sort Hs _)). apply unique_NoDup.
  - intros c n. now apply value_counts_In.
  - apply Forall_forall. intros [c n] H. apply (value_counts_In sort Hs) in H.
    destruct H as [Hc ->]. simpl. now apply count_pos.
Qed.

Lemma category_counts_rows_witness :
  NoDup (map fst (category_counts insertion_sort four_readings)) /\
  Forall (fun row => 1 <= snd row) (category_counts insertion_sort four_readings).
Proof.
  destruct (category_counts_rows insertion_sort four_readings insertion_sort_sorts)
    as (H1 & _ & H3).
  exact (conj H1 H3).
Defined.

(** X9. The rows of the category table come in descending order of count,
    whatever kernel sorts them. *)
Theorem category_counts_most_frequent_first (sort : kernel) (df : DataFrame) :
  sorts sort ->
  StronglySorted (fun a b => snd b <= snd a) (category_counts sort df).
Proof.
  intros Hs. unfold category_counts. now apply value_counts_descending.
Qed.

Lemma category_counts_most_frequent_first_witness :
  StronglySorted (fun a b : string * nat => snd b <= snd a)
                 (category_counts insertion_sort four_readings).
Proof.
  exact (category_counts_most_frequent_first insertion_sort four_readings
                                             insertion_sort_sorts).
Defined.

(** X10. On a frame whose labels come from the classifier the category table
    has at most five rows, each for one of the five labels. *)
Theorem category_counts_at_most_five (sort : kernel) (df : DataFrame) :
  sorts sort -> categorized df ->
  List.length (category_counts sort df) <= 5 /\
  Forall (fun row => In (fst row) (map label tiers)) (category_counts sort df).
Proof.
  intros Hs Hc.
  assert (Hin : forall c, In c (map fst (category_counts sort df)) ->
                          In c (map label tiers)).
  { intros c H. unfold category_counts in H.
    apply (Permutation_in _ (Permutation_sym (value_counts_labels sort Hs _))) in H.
    apply (proj1 (unique_In _ _)) in H.
    apply in_map_iff in H. destruct H as (r & <- & Hr).
    unfold categorized in Hc. rewrite Forall_forall in Hc. rewrite (Hc r Hr).
    destruct (aqi_category_label (pollutant_avg r)) as [t ->].
    apply in_map. destruct t; simpl; tauto. }
  split.
  - rewrite <- (length_map fst).
    change 5 with (List.length (map label tiers)).
    apply NoDup_incl_length; [|exact Hin].
    apply (Permutation_NoDup (value_counts_labels sort Hs _)). apply unique_NoDup.
  - apply Forall_forall. intros row Hrow. apply Hin. now apply in_map.
Qed.

Lemma category_counts_at_most_five_witness :
  List.length (category_counts insertion_sort four_readings) <= 5.
Proof.
  exact (proj1 (category_counts_at_most_five insertion_sort four_readings
                  insertion_sort_sorts ltac:(repeat constructor))).
Defined.

(** X11. The Hazardous count is the number of readings above 200 plus the
    number of missing readings: the count the Missing Values chart shows for
    pollutant_avg is part of the Hazardous bar of the category chart. *)
Theorem hazardous_count_splits (sort : kernel) (df : DataFrame) (missing n : nat) :
  sorts sort -> categorized df ->
  In ("pollutant_avg", missing) (missing_values df) ->
  In (label Hazardous, n) (category_counts sort df) ->
  n = List.length (filter (fun r => gtb (pollutant_avg r) (of_Z 200)) df) + missing.
Proof.
  intros Hs Hc Hm Hn.
  assert (Em : missing = isnull_sum (isnull c_pollutant_avg) df).
  { unfold missing_values, columns in Hm. cbn [map column_label] in Hm.
    repeat (destruct Hm as [Hm|Hm]; [try discriminate Hm|]); [|destruct Hm].
    now injection Hm as <-. }
  unfold category_counts in Hn. apply (value_counts_In sort Hs) in Hn.
  destruct Hn as [_ ->]. rewrite Em. clear Hm Em.
  unfold count, isnull_sum. induction Hc as [|r t Hr _ IH]; [reflexivity|].
  cbn [map filter isnull]. rewrite Hr, hazardous_eqb.
  destruct (isnan (pollutant_avg r)) eqn:Nr.
  - rewrite (ltb_isnan_r _ _ Nr : gtb (pollutant_avg r) (of_Z 200) = false).
    cbn [orb List.length]. rewrite IH. lia.
  - cbn [orb]. destruct (gtb (pollutant_avg r) (of_Z 200));
      cbn [List.length]; rewrite IH; lia.
Qed.

Lemma hazardous_count_splits_witness :
  In ("pollutant_avg", 1) (missing_values silent_station) /\
  In (label Hazardous, 1) (category_counts insertion_sort silent_station) /\
  1 = 0 + 1.
Proof.
  assert (Hm : In ("pollutant_avg", 1) (missing_values silent_station))
    by (vm_compute; tauto).
  assert (Hn : In (label Hazardous, 1) (category_counts insertion_sort silent_station))
    by (vm_compute; tauto).
  split; [exact Hm|]. split; [exact Hn|].
  exact (hazardous_count_splits insertion_sort silent_station 1 1 insertion_sort_sorts
                                ltac:(repeat constructor) Hm Hn).
Defined.

(** X12. A frame in which every reading is missing shows all its records as
    Hazardous in the category table and raises no alert. *)
Theorem all_readings_missing (sort : kernel) (df : DataFrame) :
  sorts sort -> categorized df -> df <> [] ->
  Forall (fun r => isnan (pollutant_avg r) = true) df ->
  alert df = false /\
  category_counts sort df = [(label Hazardous, List.length df)].
Proof.
  intros Hs Hc Hne Hall. split.
  - apply not_true_is_false. intros H. apply alert_true_iff in H.
    destruct H as (r & Hr & Hgt). rewrite Forall_forall in Hall.
    destruct (ltb_notnan _ _ Hgt) as [_ Hn]. rewrite (Hall r Hr) in Hn. discriminate.
  - assert (E : map AQI_Category df = repeat (label Hazardous) (List.length df)).
    { clear Hne. induction Hc as [|r t Hr _ IH]; [reflexivity|].
      inversion Hall as [|? ? Hn Ht]; subst. cbn [map List.length repeat].
      rewrite Hr, (aqi_category_isnan _ Hn), (IH Ht). reflexivity. }
    unfold category_counts, value_counts. rewrite E.
    destruct df as [|r t]; [contradiction|]. cbn [List.length].
    rewrite unique_repeat. cbn [map]. rewrite count_repeat.
    apply (sort_values_single sort Hs).
Qed.

Lemma all_readings_missing_witness :
  alert silent_station = false /\
  category_counts insertion_sort silent_station = [(label Hazardous, 1)].
Proof.
  apply (all_readings_missing insertion_sort silent_station insertion_sort_sorts).
  - repeat constructor.
  - discriminate.
  - repeat constructor.
Defined.

End FurtherCounts.

(** *** Groups and rankings *)

Module FurtherGroups.
Import Float64 Float64Facts StringFacts Numpy NumpyFacts Pandas PandasFacts ListFacts.
Import Main Spec MainFacts GroupFacts Samples.

(** X13. The rows of [state_avg] are exactly the states present in the
    frame, each with the mean of the readings of its own records; the same
    holds for the cities of the city ranking.  A record without a state
    belongs to no row. *)
Theorem rankings_list_group_means (sort : kernel) (df : DataFrame) :
  sorts sort ->
  (forall k m,
      In (k, m) (state_avg sort df) <->
      In (Some k) (map state df) /\
      m = mean (map pollutant_avg (filter (fun r => cell_eqb (state r) (Some k)) df))) /\
  (forall k m,
      In (k, m) (city_ranking sort df) <->
      In (Some k) (map city df) /\
      m = mean (map pollutant_avg (filter (fun r => cell_eqb (city r) (Some k)) df))).
Proof.
  intros Hs. split; intros k m.
  - rewrite <- (groupby_mean_In sort Hs). unfold state_avg. split.
    + apply Permutation_in. apply Permutation_sym. now apply sort_values_perm.
    + apply Permutation_in. now apply sort_values_perm.
  - rewrite <- (groupby_mean_In sort Hs). unfold city_ranking. split.
    + apply Permutation_in. apply Permutation_sym. now apply sort_values_perm.
    + apply Permutation_in. now apply sort_values_perm.
Qed.

Lemma rankings_list_group_means_witness :
  In ("Kerala", of_Z 35) (state_avg insertion_sort four_readings).
Proof.
  apply (proj1 (rankings_list_group_means insertion_sort four_readings
                                         insertion_sort_sorts)).
  split; [simpl; auto|reflexivity].
Defined.

(** X14. The kernel decides nothing but the order of the rows: two kernels
    that sort give the same group means, and rankings that are rearrangements
    of each other. *)
Theorem rankings_differ_by_order_only (sort sort' : kernel) (df : DataFrame) :
  sorts sort -> sorts sort' ->
  groupby_mean sort state pollutant_avg df = groupby_mean sort' state pollutant_avg df /\
  groupby_mean sort city pollutant_avg df = groupby_mean sort' city pollutant_avg df /\
  Permutation (state_avg sort df) (state_avg sort' df) /\
  Permutation (city_ranking sort df) (city_ranking sort' df).
Proof.
  intros Hs Hs'.
  assert (E1 := groupby_mean_ext sort Hs sort' state pollutant_avg df df Hs'
                                 (fun k => iff_refl _) (fun k => eq_refl)).
  assert (E2 := groupby_mean_ext sort Hs sort' city pollutant_avg df df Hs'
                                 (fun k => iff_refl _) (fun k => eq_refl)).
  repeat split; [exact E1|exact E2| |].
  - unfold state_avg. rewrite <- (sort_values_perm sort Hs), <- (sort_values_perm sort' Hs').
    now rewrite E1.
  - unfold city_ranking.
    rewrite <- (sort_values_perm sort Hs), <- (sort_values_perm sort' Hs').
    now rewrite E2.
Qed.

Lemma rankings_differ_by_order_only_witness :
  Permutation (state_avg insertion_sort level_states) (state_avg reversing_sort level_states).
Proof.
  exact (proj1 (proj2 (proj2 (rankings_differ_by_order_only
                                insertion_sort reversing_sort level_states
                                insertion_sort_sorts reversing_sort_sorts)))).
Defined.

(** X15. The rankings have one row per distinct present key: [state_avg] as
    many rows as there are states, the city ranking as many as the Total
    Cities figure.  [cleanest_cities] has five rows, or all of them when
    there are fewer than five cities. *)
Theorem rankings_sizes (sort : kernel) (df : DataFrame) :
  sorts sort ->
  List.length (state_avg sort df) = nunique (map state df) /\
  List.length (city_ranking sort df) = total_cities df /\
  List.length (cleanest_cities sort df) = Nat.min 5 (total_cities df) /\
  (total_cities df <= 5 -> cleanest_cities sort df = city_ranking sort df).
Proof.
  intros Hs.
  assert (Hc : List.length (city_ranking sort df) = total_cities df).
  { unfold city_ranking, total_cities.
    rewrite <- (Permutation_length (sort_values_perm sort Hs _ _ _ _)).
    apply (groupby_mean_length sort Hs). }
  split; [|split; [exact Hc|split]].
  - unfold state_avg.
    rewrite <- (Permutation_length (sort_values_perm sort Hs _ _ _ _)).
    apply (groupby_mean_length sort Hs).
  - unfold cleanest_cities, cleanest, head. now rewrite length_firstn, Hc.
  - intros Hle. unfold cleanest_cities, cleanest, head.
    apply firstn_all2. now rewrite Hc.
Qed.

Lemma rankings_sizes_witness :
  List.length (city_ranking insertion_sort four_readings) = total_cities four_readings /\
  cleanest_cities insertion_sort four_readings = city_ranking insertion_sort four_readings.
Proof.
  destruct (rankings_sizes insertion_sort four_readings insertion_sort_sorts)
    as (_ & H2 & _ & H4).
  split; [exact H2|]. apply H4. vm_compute. repeat constructor.
Defined.

(** X16. The head of the city ranking holds the cleanest cities: a city left
    out, if it has a mean at all, has a mean at least as large as that of
    every city listed, and every city listed has a mean. *)
Theorem cleanest_are_the_lowest (sort : kernel) (n : nat) (df : DataFrame) :
  sorts sort ->
  city_ranking sort df = cleanest sort n df ++ skipn n (city_ranking sort df) /\
  forall a b,
    In a (cleanest sort n df) -> In b (skipn n (city_ranking sort df)) ->
    isnan (snd b) = false ->
    isnan (snd a) = false /\ leb (snd a) (snd b) = true.
Proof.
  intros Hs.
  assert (E : city_ranking sort df = cleanest sort n df ++ skipn n (city_ranking sort df)).
  { unfold cleanest, head. symmetry. apply firstn_skipn. }
  split; [exact E|]. intros a b Ha Hb Hn.
  assert (H := ranking_prefix_below _ _ _ E
                 (sort_values_ascending sort Hs _) a b Ha Hb Hn).
  split; [|exact H]. now apply leb_notnan in H.
Qed.

Lemma cleanest_are_the_lowest_witness :
  In ("Kochi", of_Z 10) (cleanest insertion_sort 2 four_readings) /\
  In ("Delhi", of_Z 210) (skipn 2 (city_ranking insertion_sort four_readings)) /\
  leb (of_Z 10) (of_Z 210) = true.
Proof.
  assert (Ha : In ("Kochi", of_Z 10) (cleanest insertion_sort 2 four_readings))
    by (vm_compute; auto).
  assert (Hb : In ("Delhi", of_Z 210) (skipn 2 (city_ranking insertion_sort four_readings)))
    by (vm_compute; auto).
  split; [exact Ha|]. split; [exact Hb|].
  exact (proj2 (proj2 (cleanest_are_the_lowest insertion_sort 2 four_readings
                                               insertion_sort_sorts)
                      _ _ Ha Hb eq_refl)).
Defined.


(** X17. Filtering to a single state or city leaves that one row in the
    ranking, with the mean it has in the ranking of the whole frame. *)
Theorem ranking_of_single_selection (sort : kernel) (df : DataFrame) (k : string) :
  sorts sort ->
  (In (Some k) (map state df) ->
   exists m, state_avg sort (filtered_df State [Some k] df) = [(k, m)] /\
             In (k, m) (state_avg sort df)) /\
  (In (Some k) (map city df) ->
   exists m, city_ranking sort (filtered_df City [Some k] df) = [(k, m)] /\
             In (k, m) (city_ranking sort df)).
Proof.
  intros Hs.
  assert (G : forall (o : filter_option),
             In (Some k) (map (column o) df) ->
             groupby_mean sort (column o) pollutant_avg (filtered_df o [Some k] df)
             = [(k, mean (map pollutant_avg
                              (filter (fun r => cell_eqb (column o r) (Some k)) df)))]).
  { intros o Hk. unfold filtered_df, isin. cbn [existsb].
    rewrite (filter_ext (fun r => cell_eqb (column o r) (Some k) || false)
                        (fun r => cell_eqb (column o r) (Some k)))
      by (intros r; apply orb_false_r).
    apply (groupby_mean_single sort Hs).
    - apply in_map_iff in Hk. destruct Hk as (r & Hr & Hin).
      intros E. assert (H : In r (filter (fun r => cell_eqb (column o r) (Some k)) df)).
      { apply filter_In. split; [assumption|]. rewrite Hr. apply String.eqb_refl. }
      rewrite E in H. destruct H.
    - intros r Hr. apply filter_In in Hr. now apply cell_eqb_eq. }
  split; intros Hk.
  - exists (mean (map pollutant_avg (filter (fun r => cell_eqb (state r) (Some k)) df))).
    split.
    + assert (G1 := G State Hk). cbn [column] in G1.
      unfold state_avg. rewrite G1. apply (sort_values_single sort Hs).
    + unfold state_avg. apply (Permutation_in _ (sort_values_perm sort Hs _ _ _ _)).
      now apply (groupby_mean_In sort Hs).
  - exists (mean (map pollutant_avg (filter (fun r => cell_eqb (city r) (Some k)) df))).
    split.
    + assert (G1 := G City Hk). cbn [column] in G1.
      unfold city_ranking. rewrite G1. apply (sort_values_single sort Hs).
    + unfold city_ranking. apply (Permutation_in _ (sort_values_perm sort Hs _ _ _ _)).
      now apply (groupby_mean_In sort Hs).
Qed.

Lemma ranking_of_single_selection_witness :
  exists m, state_avg insertion_sort (filtered_df State [Some "Kerala"] four_readings)
            = [("Kerala", m)] /\
            In ("Kerala", m) (state_avg insertion_sort four_readings).
Proof.
  apply (proj1 (ranking_of_single_selection insertion_sort four_readings "Kerala"
                                            insertion_sort_sorts)).
  simpl. auto.
Defined.

(** X18. A record without a state changes nothing in [state_avg], and
    neither does a record without a reading whose state other records carry:
    a missing reading is left out of the mean, not counted as zero.  The
    same holds for cities in the city ranking. *)
Theorem rankings_skip_missing (sort : kernel) (before after : DataFrame) (r : Row) :
  sorts sort ->
  (state r = None \/
   (isnan (pollutant_avg r) = true /\ In (state r) (map state (before ++ after))) ->
   state_avg sort (before ++ r :: after) = state_avg sort (before ++ after)) /\
  (city r = None \/
   (isnan (pollutant_avg r) = true /\ In (city r) (map city (before ++ after))) ->
   city_ranking sort (before ++ r :: after) = city_ranking sort (before ++ after)).
Proof.
  intros Hs. split; intros Hr.
  - unfold state_avg. now rewrite (groupby_mean_skips sort Hs state pollutant_avg).
  - unfold city_ranking. now rewrite (groupby_mean_skips sort Hs city pollutant_avg).
Qed.

Lemma rankings_skip_missing_witness :
  state_avg insertion_sort (four_readings ++ [reading "Kerala" "Kannur" nan])
  = state_avg insertion_sort four_readings.
Proof.
  rewrite <- (app_nil_r four_readings) at 2.
  apply (proj1 (rankings_skip_missing insertion_sort four_readings []
                                      (reading "Kerala" "Kannur" nan)
                                      insertion_sort_sorts)).
  right. split; [reflexivity|]. simpl. auto.
Defined.

End FurtherGroups.

(** ** Further facts: views, options, heat points and titles *)

Module ViewFacts.
Import Float64 Float64Facts Numpy NumpyFacts Pandas PandasFacts ListFacts.
Import Main Spec MainFacts.

Lemma cell_eqb_refl (c : option string) : cell_eqb c c = true.
Proof. now apply cell_eqb_eq. Qed.

Lemma unique_cells_In (l : list (option string)) (c : option string) :
  In c (unique_cells l) <-> In c l.
Proof.
  induction l as [|a t IH]; simpl; [reflexivity|].
  rewrite filter_In, IH, negb_true_iff.
  destruct (cell_eqb a c) eqn:E.
  - apply cell_eqb_eq in E. subst. tauto.
  - split; [tauto|]. intros [H|H]; [now left|now right].
Qed.

Lemma unique_cells_NoDup (l : list (option string)) : NoDup (unique_cells l).
Proof.
  induction l as [|a t IH]; simpl; constructor.
  - rewrite filter_In, negb_true_iff, cell_eqb_refl. intros [_ H]. discriminate.
  - now apply NoDup_filter.
Qed.

Lemma filtered_df_In (o : filter_option) (selected : list (option string))
      (df : DataFrame) (r : Row) :
  In r (filtered_df o selected df) <->
  In r df /\ (selected = [] \/ In (column o r) selected).
Proof.
  unfold filtered_df. destruct selected as [|s t].
  - split; [auto|tauto].
  - rewrite filter_In, isin_In. split.
    + intros [H1 H2]. auto.
    + intros [H1 [H2|H2]]; [discriminate|auto].
Qed.

Lemma strings_of_None (items : list (option string)) :
  strings_of items = None <-> In None items.
Proof.
  induction items as [|[s|] t IH]; simpl.
  - split; [discriminate|tauto].
  - destruct (strings_of t) as [l|].
    + split; [discriminate|]. intros [H|H]; [discriminate|].
      apply IH in H. discriminate.
    + split; [|reflexivity]. intros _. right. now apply IH.
  - split; [auto|reflexivity].
Qed.

Lemma strings_of_Some (items : list (option string)) (l : list string) :
  strings_of items = Some l <-> items = map Some l.
Proof.
  revert l. induction items as [|[s|] t IH]; intros l; simpl.
  - split.
    + intros H. injection H as <-. reflexivity.
    + destruct l; [reflexivity|discriminate].
  - destruct (strings_of t) as [l'|] eqn:E.
    + split.
      * intros H. injection H as <-. simpl. f_equal. now apply IH.
      * destruct l as [|x l]; [discriminate|]. simpl. intros H. injection H as -> H.
        apply IH in H. congruence.
    + split; [discriminate|].
      destruct l as [|x l]; [discriminate|]. simpl. intros H. injection H as _ H.
      apply IH in H. discriminate.
  - split; [discriminate|]. destruct l; discriminate.
Qed.

End ViewFacts.

(** *** Views, options, heat points and titles *)

Module FurtherViews.
Import Float64 Float64Facts Numpy NumpyFacts Pandas PandasFacts ListFacts.
Import Main Spec MainFacts ViewFacts Samples.

(** X19. The multiselect offers every cell of the chosen column once, a
    missing cell included.  Choosing all of them gives the whole frame, and
    any non-empty choice among them gives a view with at least one record:
    through the widget the view is never empty unless the frame is. *)
Theorem offered_selection_is_never_empty (o : filter_option) (df : DataFrame) :
  NoDup (options o df) /\
  (forall c, In c (options o df) <-> In c (map (column o) df)) /\
  filtered_df o (options o df) df = df /\
  (forall selected,
      selected <> [] -> incl selected (options o df) ->
      filtered_df o selected df <> []).
Proof.
  assert (Hin : forall c, In c (options o df) <-> In c (map (column o) df))
    by (intros c; apply unique_cells_In).
  split; [apply unique_cells_NoDup|]. split; [exact Hin|]. split.
  - unfold filtered_df. destruct (options o df) as [|c t] eqn:E; [reflexivity|].
    apply forallb_filter_id. apply forallb_forall. intros r Hr.
    apply isin_In. apply Hin. now apply in_map.
  - intros selected Hne Hincl. destruct selected as [|c t]; [contradiction|].
    assert (Hc : In c (map (column o) df)).
    { apply Hin, Hincl. now left. }
    apply in_map_iff in Hc. destruct Hc as (r & Hr & Hdf).
    intros E.
    assert (H : In r (filtered_df o (c :: t) df)).
    { apply filtered_df_In. split; [assumption|]. right. rewrite Hr. now left. }
    rewrite E in H. destruct H.
Qed.

Lemma offered_selection_is_never_empty_witness :
  filtered_df City [Some "Kochi"] four_readings <> [].
Proof.
  apply (proj2 (proj2 (proj2 (offered_selection_is_never_empty City four_readings)))).
  - discriminate.
  - intros c [<-|[]]. simpl. auto.
Defined.

(** X20. A view holds the records of the frame whose cell is selected, a
    missing cell counting as selected when the selection has a missing
    entry; the empty selection selects every record.  Among non-empty
    selections a larger one gives a larger view. *)
Theorem view_grows_with_selection (o : filter_option) (df : DataFrame) :
  (forall selected r,
      In r (filtered_df o selected df) <->
      In r df /\ (selected = [] \/ In (column o r) selected)) /\
  (forall selected selected',
      selected <> [] -> incl selected selected' ->
      incl (filtered_df o selected df) (filtered_df o selected' df)).
Proof.
  split; [intros selected r; apply filtered_df_In|].
  intros selected selected' Hne Hincl r Hr.
  apply filtered_df_In in Hr. destruct Hr as [Hdf [H|H]]; [contradiction|].
  apply filtered_df_In. split; [assumption|]. right. now apply Hincl.
Qed.

Lemma view_grows_with_selection_witness :
  incl (filtered_df State [Some "Kerala"] four_readings)
       (filtered_df State [Some "Delhi"; Some "Kerala"] four_readings).
Proof.
  apply (proj2 (view_grows_with_selection State four_readings)).
  - discriminate.
  - intros c [<-|[]]. simpl. auto.
Defined.

(** X21. Every heat point has a latitude, a longitude and a weight, none of
    them missing, taken from one record of the frame; a record gives a point
    exactly when its three cells are present, so there are never more points
    than records with a reading. *)
Theorem heat_data_points (df : DataFrame) :
  Forall (fun p => List.length p = 3 /\ Forall (fun x => isnan x = false) p) (heat_data df) /\
  (forall lat lon w,
      In [lat; lon; w] (heat_data df) <->
      exists r, In r df /\ latitude r = lat /\ longitude r = lon /\ pollutant_avg r = w /\
                isnan lat = false /\ isnan lon = false /\ isnan w = false) /\
  List.length (heat_data df) <= categorizable df.
Proof.
  unfold heat_data, notna. split; [|split].
  - apply Forall_forall. intros p Hp. apply in_map_iff in Hp.
    destruct Hp as (r & <- & Hr). apply filter_In in Hr. destruct Hr as [_ Hr].
    rewrite !andb_true_iff, !negb_true_iff in Hr. destruct Hr as [[H1 H2] H3].
    split; [reflexivity|]. repeat constructor; assumption.
  - intros lat lon w. rewrite in_map_iff. split.
    + intros (r & E & Hr). injection E as <- <- <-.
      apply filter_In in Hr. destruct Hr as [Hdf Hr].
      rewrite !andb_true_iff, !negb_true_iff in Hr. destruct Hr as [[H1 H2] H3].
      exists r. auto 10.
    + intros (r & Hdf & <- & <- & <- & H1 & H2 & H3).
      exists r. split; [reflexivity|]. apply filter_In. split; [assumption|].
      now rewrite H1, H2, H3.
  - rewrite length_map. unfold categorizable, notna.
    induction df as [|r t IH]; simpl; [lia|].
    destruct (isnan (pollutant_avg r)); simpl.
    + rewrite andb_false_r. lia.
    + destruct (negb (isnan (latitude r)) && negb (isnan (longitude r))); simpl; lia.
Qed.

(** X22. The title of the box plot cannot be built when the selection has a
    missing entry: joining the names fails.  Otherwise it names the selected
    values, separated by commas, or says All for the empty selection. *)
Theorem box_title_needs_names (selected : list (option string)) :
  (box_title selected = None <-> In None selected) /\
  (forall names,
      names <> [] ->
      box_title (map Some names)
      = Some ("Pollutant Level Distribution (" ++ String.concat ", " names ++ ")")%string) /\
  box_title [] = Some "Pollutant Level Distribution (All)".
Proof.
  split; [|split; [|reflexivity]].
  - unfold box_title, join. destruct selected as [|c t]; [split; [discriminate|intros []]|].
    destruct (strings_of (c :: t)) as [l|] eqn:E.
    + split; [discriminate|]. intros H. apply strings_of_None in H. congruence.
    + split; [|reflexivity]. intros _. now apply strings_of_None.
  - intros names Hne. unfold box_title, join.
    destruct names as [|n t]; [contradiction|].
    cbn [map]. rewrite (proj2 (strings_of_Some (Some n :: map Some t) (n :: t)) eq_refl).
    reflexivity.
Qed.

Lemma box_title_needs_names_witness :
  box_title [Some "Kerala"; Some "Delhi"]
  = Some "Pollutant Level Distribution (Kerala, Delhi)".
Proof.
  apply (proj1 (proj2 (box_title_needs_names [])) ["Kerala"; "Delhi"]).
  discriminate.
Defined.

End FurtherViews.
